(** * data_harvest_reader: a shallow embedding of [DataReader]

    The development follows [data_harvest_reader/data_reader.py]:

    - [PyStr], [OsPath], [Re]: the pieces of the Python runtime the reader
      calls ([str.rfind], slicing, [os.path.basename], [os.path.splitext],
      [os.path.join], [re.sub] for the pattern used when joining files);
    - [Polars]: the fragment of the polars API the reader calls
      (literal and series masks, [&], [|], comparisons, [is_in],
      [DataFrame.filter], [DataFrame.unique], [pl.concat]);
    - [Section Reader]: the readers and the methods of [DataReader], over
      a [world]: the file system, the archive reader, the polars readers
      and the scheduling of the thread pool, which the class does not
      define.

    Exceptions are values: a computation returns [Ok v] or [Raise e], and the
    work it performs (directory listings, archive opens, decodes, filter
    conditions evaluated) is recorded in a trace, so that statements about
    what happens before an exception is raised can be made.  Calls to the
    logger are left out: they neither change a result nor raise.  Paths
    follow [posixpath]; [\d] is read over ASCII digits. *)

From Stdlib Require Import ZArith Ascii String List Bool Lia.
From stdpp Require Import base option list strings gmap fin_maps.

Open Scope string_scope.
Open Scope list_scope.

(* ===================================================================== *)
(** ** Python strings *)
(* ===================================================================== *)

Module PyStr.

(** [s.rfind(c)] for a one-character needle: the highest index at which
    [c] occurs, [-1] if there is none. *)
Fixpoint rfind_from (c : ascii) (s : string) (i : Z) (last : Z) : Z :=
  match s with
  | EmptyString => last
  | String a r => rfind_from c r (i + 1) (if Ascii.eqb a c then i else last)
  end.

Definition rfind (c : ascii) (s : string) : Z := rfind_from c s 0 (-1).

(** [s[i:]] and [s[:i]] for [i >= 0]. *)
Fixpoint drop_str (n : nat) (s : string) : string :=
  match n, s with
  | O, _ => s
  | S n', String _ r => drop_str n' r
  | S _, EmptyString => EmptyString
  end.

Fixpoint take_str (n : nat) (s : string) : string :=
  match n, s with
  | O, _ => EmptyString
  | S n', String a r => String a (take_str n' r)
  | S _, EmptyString => EmptyString
  end.

Definition slice_from (i : Z) (s : string) : string := drop_str (Z.to_nat i) s.
Definition slice_to (i : Z) (s : string) : string := take_str (Z.to_nat i) s.
Definition slice (i j : Z) (s : string) : string :=
  take_str (Z.to_nat (j - i)) (drop_str (Z.to_nat i) s).

Fixpoint all_chars (p : ascii -> bool) (s : string) : bool :=
  match s with
  | EmptyString => true
  | String a r => p a && all_chars p r
  end.

(** [s.endswith(c)] for a one-character suffix. *)
Fixpoint endswith (c : ascii) (s : string) : bool :=
  match s with
  | EmptyString => false
  | String a EmptyString => Ascii.eqb a c
  | String _ r => endswith c r
  end.

Definition startswith (c : ascii) (s : string) : bool :=
  match s with
  | String a _ => Ascii.eqb a c
  | EmptyString => false
  end.

(** [needle in s]. *)
Fixpoint contains (needle s : string) : bool :=
  String.prefix needle s
  || match s with
     | EmptyString => false
     | String _ r => contains needle r
     end.

(** [sep.join(l)]. *)
Fixpoint join (sep : string) (l : list string) : string :=
  match l with
  | [] => ""
  | [x] => x
  | x :: r => x +:+ sep +:+ join sep r
  end.

End PyStr.

(* ===================================================================== *)
(** ** os.path (posixpath) *)
(* ===================================================================== *)

Module OsPath.
Import PyStr.

(** [posixpath.basename]: [i = p.rfind('/') + 1; return p[i:]]. *)
Definition basename (p : string) : string :=
  let i := (rfind "/" p + 1)%Z in
  slice_from i p.

(** [genericpath._splitext(p, '/', None, '.')]: the extension starts at
    the last dot of the last path component, unless that component
    consists of leading dots only up to it. *)
Definition splitext (p : string) : string * string :=
  let sepIndex := rfind "/" p in
  let dotIndex := rfind "." p in
  if (dotIndex >? sepIndex)%Z then
    if all_chars (fun a => Ascii.eqb a ".") (slice (sepIndex + 1) dotIndex p)
    then (p, "")
    else (slice_to dotIndex p, slice_from dotIndex p)
  else (p, "").

(** [posixpath.join(a, b)] for two components. *)
Definition join (a b : string) : string :=
  if startswith "/" b then b
  else if (String.eqb a "" || endswith "/" a)%bool then a +:+ b
  else a +:+ "/" +:+ b.

End OsPath.

(* ===================================================================== *)
(** ** re.sub for patterns made of literals, [\d], [\d{n}] and [\d+] *)
(* ===================================================================== *)

Module Re.

Inductive cls : Type :=
| CChar (a : ascii)
| CDigit.

Inductive piece : Type :=
| POne (c : cls)
| PRep (n : nat) (c : cls)
| PPlus (c : cls).

(** A pattern is an alternation [a1|a2|...] of sequences of pieces. *)
Definition alternative : Type := list piece.
Definition pattern : Type := list alternative.

Definition is_digit (a : ascii) : bool :=
  let n := nat_of_ascii a in (48 <=? n)%nat && (n <=? 57)%nat.

Definition cls_ok (c : cls) (a : ascii) : bool :=
  match c with
  | CChar b => Ascii.eqb a b
  | CDigit => is_digit a
  end.

(** The matchers return the number of characters consumed by the first
    match the backtracking search of [re] finds. *)

(** [c{n}] followed by [k]. *)
Fixpoint rep (c : cls) (n : nat) (k : string -> option nat) (s : string)
  : option nat :=
  match n with
  | O => k s
  | S n' =>
      match s with
      | String a r => if cls_ok c a then S <$> rep c n' k r else None
      | EmptyString => None
      end
  end.

(** Greedy [c+] followed by [k]: one more [c] is tried before [k]. *)
Fixpoint plus (c : cls) (k : string -> option nat) (s : string) : option nat :=
  match s with
  | String a r =>
      if cls_ok c a then
        match plus c k r with
        | Some n => Some (S n)
        | None => S <$> k r
        end
      else None
  | EmptyString => None
  end.

Fixpoint match_seq (ps : alternative) (s : string) : option nat :=
  match ps with
  | [] => Some O
  | POne c :: ps' => rep c 1 (match_seq ps') s
  | PRep n c :: ps' => rep c n (match_seq ps') s
  | PPlus c :: ps' => plus c (match_seq ps') s
  end.

(** Alternatives are tried left to right; the first that matches wins. *)
Fixpoint match_here (p : pattern) (s : string) : option nat :=
  match p with
  | [] => None
  | a :: p' =>
      match match_seq a s with
      | Some n => Some n
      | None => match_here p' s
      end
  end.

(** [re.sub(p, '', s)]: scan left to right, delete each non-overlapping
    match.  [skip] counts the characters of the current match that are
    still to be deleted. *)
Fixpoint sub_skip (p : pattern) (skip : nat) (s : string) : string :=
  match s with
  | EmptyString => EmptyString
  | String a r =>
      match skip with
      | S k => sub_skip p k r
      | O =>
          match match_here p s with
          | Some (S n) => sub_skip p n r
          | _ => String a (sub_skip p O r)
          end
      end
  end.

Definition sub_empty (p : pattern) (s : string) : string := sub_skip p 0 s.

Definition lit (s : string) : alternative :=
  map (fun a => POne (CChar a)) (list_ascii_of_string s).

End Re.

(* ===================================================================== *)
(** ** Exceptions, results and traces *)
(* ===================================================================== *)

(** An exception is its class name and [str(e)]. *)
Record exn : Type := Exn { exn_class : string; exn_msg : string }.

Inductive result (A : Type) : Type :=
| Ok (a : A)
| Raise (e : exn).
Arguments Ok {A} a.
Arguments Raise {A} e.

Definition rbind {A B} (r : result A) (f : A -> result B) : result B :=
  match r with
  | Ok a => f a
  | Raise e => Raise e
  end.

(** Python values that occur as [values] of a filter rule. *)
Inductive scalar : Type :=
| SNone
| SBool (b : bool)
| SInt (z : Z)
| SStr (s : string).

Inductive pyval : Type :=
| PScalar (v : scalar)
| PList (l : list scalar).

(** [isinstance(values, list)] *)
Definition is_list (v : pyval) : bool :=
  match v with PList _ => true | PScalar _ => false end.

(** What a call of the reader does besides returning. *)
Inductive event : Type :=
| EvListdir (path : string)
| EvZipOpen
| EvDecode (file_name : string)
| EvCondition (column operation : string) (values : pyval).

(** A computation: the trace of its events and its outcome. *)
Definition M (A : Type) : Type := list event * result A.

Definition ret {A} (a : A) : M A := ([], Ok a).
Definition raise {A} (e : exn) : M A := ([], Raise e).
Definition emit (ev : event) : M unit := ([ev], Ok tt).
Definition lift {A} (r : result A) : M A := ([], r).

Definition bind {A B} (m : M A) (f : A -> M B) : M B :=
  match m with
  | (t, Ok a) => let '(t', r) := f a in (t ++ t', r)
  | (t, Raise e) => (t, Raise e)
  end.

(** [try: m except Exception as e: h e] *)
Definition try_except {A} (m : M A) (h : exn -> M A) : M A :=
  match m with
  | (t, Raise e) => let '(t', r) := h e in (t ++ t', r)
  | (t, Ok a) => (t, Ok a)
  end.

Definition trace {A} (m : M A) : list event := fst m.
Definition outcome {A} (m : M A) : result A := snd m.

Declare Scope py_scope.
Delimit Scope py_scope with py.
Notation "x <- m ;; k" := (bind m (fun x => k))
  (at level 100, m at next level, right associativity) : py_scope.
Notation "m ;;; k" := (bind m (fun _ => k))
  (at level 100, right associativity) : py_scope.

(* ===================================================================== *)
(** ** The polars fragment used by the reader *)
(* ===================================================================== *)

(** polars is a dependency of the reader, not part of it.  The model keeps
    what the reader relies on: typed columns of nullable cells, eager
    comparisons of a column with a Python value, lazy boolean expressions
    combined with [&] and [|] (three-valued), [filter] keeping the rows whose
    predicate is true, [unique(keep='first')] and vertical [concat].  polars
    leaves the order of the rows [unique] returns open; here they stay in
    the order of the frame. *)
Module Polars.

Inductive dtype : Type := Boolean | Int64 | Utf8.

Inductive value : Type :=
| VBool (b : bool)
| VInt (z : Z)
| VStr (s : string).

#[global] Instance dtype_eq_dec : EqDecision dtype.
Proof. solve_decision. Defined.
#[global] Instance value_eq_dec : EqDecision value.
Proof. solve_decision. Defined.

(** A cell is a value or null. *)
Definition cell : Type := option value.

Record Series : Type := mkSeries { dtype_of : dtype; cells : list cell }.

(** A frame is its columns, in order. *)
Definition DataFrame : Type := list (string * Series).

Definition columns (df : DataFrame) : list string := map fst df.

Definition schema (df : DataFrame) : list (string * dtype) :=
  map (fun c => (fst c, dtype_of (snd c))) df.

Definition height (df : DataFrame) : nat :=
  match df with
  | [] => 0
  | (_, s) :: _ => length (cells s)
  end.

(** [df[column]] *)
Fixpoint get_column (df : DataFrame) (column : string) : result Series :=
  match df with
  | [] => Raise (Exn "ColumnNotFoundError" column)
  | (n, s) :: df' => if String.eqb n column then Ok s else get_column df' column
  end.

(** *** Eager comparisons: a boolean series *)

Definition bools : Type := list (option bool).

Inductive cmp : Type := CEq | CNe | CGt | CGe | CLt | CLe.

Definition test (op : cmp) (o : comparison) : bool :=
  match op, o with
  | CEq, Eq => true
  | CNe, (Lt | Gt) => true
  | CGt, Gt => true
  | CGe, (Gt | Eq) => true
  | CLt, Lt => true
  | CLe, (Lt | Eq) => true
  | _, _ => false
  end.

Definition fits (d : dtype) (v : scalar) : bool :=
  match d, v with
  | _, SNone => true
  | Boolean, SBool _ => true
  | Int64, SInt _ => true
  | Utf8, SStr _ => true
  | _, _ => false
  end.

(** A null on either side gives null. *)
Definition compare_cell (op : cmp) (c : cell) (v : scalar) : option bool :=
  match c, v with
  | Some (VBool a), SBool b => Some (test op (Bool.compare a b))
  | Some (VInt a), SInt b => Some (test op (a ?= b)%Z)
  | Some (VStr a), SStr b => Some (test op (String.compare a b))
  | _, _ => None
  end.

Definition type_error {A} : result A :=
  Raise (Exn "ComputeError" "cannot compare column with a value of another type").
Definition shape_error {A} : result A :=
  Raise (Exn "ShapeError" "series of different lengths").

Fixpoint compare_cells (op : cmp) (cs : list cell) (vs : list scalar) : bools :=
  match cs, vs with
  | c :: cs', v :: vs' => compare_cell op c v :: compare_cells op cs' vs'
  | _, _ => []
  end.

(** [s == v], [s > v], ...: against a scalar every cell is compared with
    it; against a list the comparison is element by element. *)
Definition compare_series (op : cmp) (s : Series) (v : pyval) : result bools :=
  match v with
  | PScalar x =>
      if fits (dtype_of s) x
      then Ok (map (fun c => compare_cell op c x) (cells s))
      else type_error
  | PList l =>
      if negb (forallb (fits (dtype_of s)) l) then type_error
      else if (length l =? length (cells s))%nat
           then Ok (compare_cells op (cells s) l)
           else shape_error
  end.

Definition is_in_cell (l : list scalar) (c : cell) : option bool :=
  match c with
  | None => None
  | Some _ =>
      Some (existsb (fun v =>
              match compare_cell CEq c v with
              | Some b => b
              | None => false
              end) l)
  end.

(** [s.is_in(l)] *)
Definition is_in (s : Series) (l : list scalar) : result bools :=
  if forallb (fits (dtype_of s)) l
  then Ok (map (is_in_cell l) (cells s))
  else type_error.

(** [~s] *)
Definition invert (m : bools) : bools := map (fmap negb) m.

(** *** Lazy expressions *)

Inductive expr : Type :=
| lit (b : bool)
| of_series (m : bools)
| and_ (e1 e2 : expr)
| or_ (e1 e2 : expr).

Definition and3 (a b : option bool) : option bool :=
  match a, b with
  | Some false, _ | _, Some false => Some false
  | Some true, Some true => Some true
  | _, _ => None
  end.

Definition or3 (a b : option bool) : option bool :=
  match a, b with
  | Some true, _ | _, Some true => Some true
  | Some false, Some false => Some false
  | _, _ => None
  end.

(** The value of an expression: a literal, broadcast to any height, or
    one boolean per row. *)
Inductive mask : Type :=
| Broadcast (b : option bool)
| PerRow (m : bools).

Fixpoint zip3 (f : option bool -> option bool -> option bool)
  (l1 l2 : bools) : bools :=
  match l1, l2 with
  | a :: l1', b :: l2' => f a b :: zip3 f l1' l2'
  | _, _ => []
  end.

Definition combine (f : option bool -> option bool -> option bool)
  (a b : mask) : result mask :=
  match a, b with
  | Broadcast x, Broadcast y => Ok (Broadcast (f x y))
  | Broadcast x, PerRow l => Ok (PerRow (map (f x) l))
  | PerRow l, Broadcast y => Ok (PerRow (map (fun x => f x y) l))
  | PerRow l1, PerRow l2 =>
      if (length l1 =? length l2)%nat then Ok (PerRow (zip3 f l1 l2))
      else shape_error
  end.

Fixpoint eval (e : expr) : result mask :=
  match e with
  | lit b => Ok (Broadcast (Some b))
  | of_series m => Ok (PerRow m)
  | and_ e1 e2 => rbind (eval e1) (fun a => rbind (eval e2) (combine and3 a))
  | or_ e1 e2 => rbind (eval e1) (fun a => rbind (eval e2) (combine or3 a))
  end.

(** *** Frames *)

Fixpoint select {A} (m : list bool) (l : list A) : list A :=
  match m, l with
  | b :: m', x :: l' => if b then x :: select m' l' else select m' l'
  | _, _ => []
  end.

Definition is_true (b : option bool) : bool :=
  match b with Some true => true | _ => false end.

Definition select_rows (m : list bool) (df : DataFrame) : DataFrame :=
  map (fun c => (fst c, mkSeries (dtype_of (snd c)) (select m (cells (snd c))))) df.

Definition clear (df : DataFrame) : DataFrame :=
  map (fun c => (fst c, mkSeries (dtype_of (snd c)) [])) df.

(** [df.filter(e)]: the rows on which [e] is true; null counts as false. *)
Definition filter (df : DataFrame) (e : expr) : result DataFrame :=
  rbind (eval e) (fun m =>
    match m with
    | Broadcast (Some true) => Ok df
    | Broadcast _ => Ok (clear df)
    | PerRow l =>
        if (length l =? height df)%nat
        then Ok (select_rows (map is_true l) df)
        else shape_error
    end).

(** Row [i] restricted to the given columns. *)
Definition row_key (cols : list Series) (i : nat) : list (option cell) :=
  map (fun s => cells s !! i) cols.

Fixpoint first_seen (seen keys : list (list (option cell))) : list bool :=
  match keys with
  | [] => []
  | k :: keys' =>
      if bool_decide (k ∈ seen) then false :: first_seen seen keys'
      else true :: first_seen (k :: seen) keys'
  end.

Fixpoint get_columns (df : DataFrame) (names : list string) : result (list Series) :=
  match names with
  | [] => Ok []
  | n :: names' =>
      rbind (get_column df n) (fun s =>
      rbind (get_columns df names') (fun ss => Ok (s :: ss)))
  end.

(** [df.unique(subset=subset, keep='first')]; [None] is all columns. *)
Definition unique (df : DataFrame) (subset : option (list string)) : result DataFrame :=
  rbind (get_columns df (default (columns df) subset)) (fun cols =>
    let keys := map (row_key cols) (seq 0 (height df)) in
    Ok (select_rows (first_seen [] keys) df)).

Fixpoint append_columns (a b : DataFrame) : DataFrame :=
  match a, b with
  | (n, s) :: a', (_, s') :: b' =>
      (n, mkSeries (dtype_of s) (cells s ++ cells s')) :: append_columns a' b'
  | _, _ => []
  end.

(** [pl.concat([a, b])]: vertical, the schemas must agree. *)
Definition concat (a b : DataFrame) : result DataFrame :=
  if bool_decide (schema a = schema b) then Ok (append_columns a b)
  else Raise (Exn "ShapeError" "unable to vstack, schemas differ").

End Polars.

(* ===================================================================== *)
(** ** The world of a reader: files, archives, polars readers *)
(* ===================================================================== *)

Definition bytes : Type := list Byte.byte.

(** A path names a directory, with the names [os.listdir] returns for it in
    the order it returns them, or a regular file with its content. *)
Inductive node : Type :=
| Dir (names : list string)
| File (content : bytes).

(** The [source] argument of [read_data]: a [str], a [bytes], or a value of
    another type (its type name is kept). *)
Inductive source : Type :=
| SrcStr (s : string)
| SrcBytes (b : bytes)
| SrcOther (type_name : string).

(** What [_read_file] is handed: a path, or an open archive member. *)
Inductive file : Type :=
| Path (p : string)
| ZipExtFile (name : string) (content : bytes).

(** The polars entry points called by the four readers. *)
Inductive pl_reader : Type :=
| scan_csv_collect
| read_csv
| read_json
| scan_parquet_collect
| read_excel.

(** A filter rule, as the dict [{'column': .., 'operation': .., 'values': ..,
    'operator': ..}] whose last key is optional. *)
Record filter_rule : Type := mkRule {
  column : string;
  operation : string;
  values : pyval;
  operator : option string
}.

Definition in_tuple (s : string) (t : list string) : bool :=
  existsb (String.eqb s) t.

(** Truth value of a Python value. *)
Definition truthy (v : pyval) : bool :=
  match v with
  | PScalar SNone => false
  | PScalar (SBool b) => b
  | PScalar (SInt z) => negb (z =? 0)%Z
  | PScalar (SStr s) => negb (String.eqb s "")
  | PList l => negb (bool_decide (length l = 0%nat))
  end.

(** [repr] of a key in the message of a [KeyError]. *)
Definition repr_str (s : string) : string := "'" +:+ s +:+ "'".

(** The world a reader runs in, which the class does not define. *)
Record world : Type := mkWorld {
  (** the file system: what each path names *)
  fs : gmap string node;
  (** [zipfile.ZipFile(..)] on the bytes of an archive: the members
      [[zip_ref.open(name) for name in zip_ref.namelist()]] with their
      names, or the exception raised for bytes that are no archive *)
  zip_members : bytes -> result (list (string * bytes));
  (** the polars readers: from a file and keyword arguments to a frame *)
  polars : pl_reader -> file -> gmap string pyval
           -> result (option Polars.DataFrame);
  (** the thread pool: how the events of the tasks it runs interleave *)
  scheduler : list (list event) -> list event
}.

Section Reader.
Import Polars.
Local Open Scope py_scope.

Variable w : world.

Definition isdir (p : string) : bool :=
  match fs w !! p with Some (Dir _) => true | _ => false end.

Definition isfile (p : string) : bool :=
  match fs w !! p with Some (File _) => true | _ => false end.

Definition listdir (p : string) : M (list string) :=
  emit (EvListdir p) ;;;
  match fs w !! p with
  | Some (Dir names) => ret names
  | Some (File _) => raise (Exn "NotADirectoryError" p)
  | None => raise (Exn "FileNotFoundError" p)
  end.

(** [zipfile.ZipFile(path, 'r')] *)
Definition ZipFile_path (p : string) : M (list (string * bytes)) :=
  emit EvZipOpen ;;;
  match fs w !! p with
  | Some (File b) => lift (zip_members w b)
  | Some (Dir _) => raise (Exn "IsADirectoryError" p)
  | None => raise (Exn "FileNotFoundError" p)
  end.

(** [zipfile.ZipFile(io.BytesIO(b), 'r')] *)
Definition ZipFile_bytes (b : bytes) : M (list (string * bytes)) :=
  emit EvZipOpen ;;; lift (zip_members w b).

(** *** The four readers *)

Definition kwarg (name : string) (dflt : pyval) (kwargs : gmap string pyval) : pyval :=
  default dflt (kwargs !! name).

(** Passing a keyword that [**kwargs] also carries is a [TypeError]. *)
Definition with_keyword (name : string) (v : pyval) (kwargs : gmap string pyval)
  : result (gmap string pyval) :=
  match kwargs !! name with
  | Some _ => Raise (Exn "TypeError" ("got multiple values for keyword argument " +:+ repr_str name))
  | None => Ok (<[name := v]> kwargs)
  end.

Definition _read_csv (file_path : file) (kwargs : gmap string pyval)
  : result (option DataFrame) :=
  let chunksize := kwarg "chunksize" (PScalar SNone) kwargs in
  let kwargs := delete "chunksize" kwargs in
  if truthy chunksize then
    rbind (with_keyword "batch_size" chunksize kwargs) (polars w scan_csv_collect file_path)
  else polars w read_csv file_path kwargs.

Definition _read_json (file_path : file) (kwargs : gmap string pyval)
  : result (option DataFrame) :=
  polars w read_json file_path kwargs.

Definition _read_parquet (file_path : file) (kwargs : gmap string pyval)
  : result (option DataFrame) :=
  let n_rows := kwarg "n_rows" (PScalar SNone) kwargs in
  let low_memory := kwarg "low_memory" (PScalar (SBool false)) kwargs in
  let kwargs := delete "low_memory" (delete "n_rows" kwargs) in
  match
    polars w scan_parquet_collect file_path
      (<["n_rows" := n_rows]> (<["low_memory" := low_memory]> kwargs))
  with
  | Ok df => Ok df
  | Raise e => Raise e
  end.

Definition _read_excel (file_path : file) (kwargs : gmap string pyval)
  : result (option DataFrame) :=
  polars w read_excel file_path kwargs.

(** *** DataReader *)

(** [self.data_formats] *)
Definition data_formats
  : gmap string (file -> gmap string pyval -> result (option DataFrame)) :=
  <[".csv" := _read_csv]> (
  <[".json" := _read_json]> (
  <[".parquet" := _read_parquet]> (
  <[".xlsx" := _read_excel]> ∅))).

(** [self.__available_operations] *)
Definition __available_operations : list string :=
  ["notin"; "in"; "=="; ">"; ">="; "<"; "<="; "!="].

Definition FilterConfigurationError (msg : string) : exn :=
  Exn "FilterConfigurationError" msg.
Definition UnsupportedFormatError (msg : string) : exn :=
  Exn "UnsupportedFormatError" msg.
Definition ValueError (msg : string) : exn := Exn "ValueError" msg.
Definition KeyError (key : string) : exn := Exn "KeyError" (repr_str key).

Definition _build_filter_condition (df : DataFrame) (column operation : string)
  (values : pyval) : M bools :=
  let compare op :=
    s <- lift (get_column df column) ;;
    emit (EvCondition column operation values) ;;;
    lift (compare_series op s values) in
  let as_list := match values with PList l => l | PScalar v => [v] end in
  if String.eqb operation "==" then compare CEq
  else if String.eqb operation ">" then compare CGt
  else if String.eqb operation ">=" then compare CGe
  else if String.eqb operation "<" then compare CLt
  else if String.eqb operation "<=" then compare CLe
  else if String.eqb operation "!=" then compare CNe
  else if String.eqb operation "in" then
    s <- lift (get_column df column) ;;
    emit (EvCondition column operation values) ;;;
    lift (is_in s as_list)
  else if String.eqb operation "notin" then
    s <- lift (get_column df column) ;;
    emit (EvCondition column operation values) ;;;
    m <- lift (is_in s as_list) ;;
    ret (invert m)
  else raise (FilterConfigurationError ("Unsupported operation: " +:+ operation)).

Definition not_allowed_msg (operation : string) : string :=
  operation +:+ " is not allowed, the only allowed operations are '"
  +:+ PyStr.join ", " __available_operations +:+ "'".

Definition list_values_msg (df_name : string) : string :=
  "For list values, use 'notin' or 'in' operation. DataFrame name: " +:+ df_name.

(** The body of the [for filter_rule in filters] loop of [apply_filters],
    threaded through the rules with the [query] built so far. *)
Fixpoint apply_filters_loop (df : DataFrame) (df_name : string)
  (filters : list filter_rule) (query : expr) : M expr :=
  match filters with
  | [] => ret query
  | filter_rule :: filters' =>
      let col := column filter_rule in
      let operation := operation filter_rule in
      let values := values filter_rule in
      let operator := default "and" (operator filter_rule) in
      if negb (in_tuple operation __available_operations) then
        raise (FilterConfigurationError (not_allowed_msg operation))
      else if negb (in_tuple operation ["notin"; "in"]) && is_list values then
        raise (FilterConfigurationError (list_values_msg df_name))
      else
        condition <- _build_filter_condition df col operation values ;;
        let query :=
          if String.eqb operator "and" then and_ query (of_series condition)
          else if String.eqb operator "or" then or_ query (of_series condition)
          else query in
        apply_filters_loop df df_name filters' query
  end.

Definition apply_filters (df : DataFrame) (filters : list filter_rule)
  (df_name : string) : M DataFrame :=
  try_except
    (query <- apply_filters_loop df df_name filters (lit true) ;;
     lift (filter df query))
    (fun e => raise (FilterConfigurationError
                ("Error in filter configuration for " +:+ df_name +:+ ": " +:+ exn_msg e))).

(** *** Loading *)

(** The pattern of [re.sub] in [_read_files_parallel]:
    [_(\d+)|_(\d{4}-\d{2}-\d{2} \d{2}:\d{2}:\d{2})|_(\d{14})]. *)
Definition join_pattern : Re.pattern :=
  [ Re.lit "_" ++ [Re.PPlus Re.CDigit];
    Re.lit "_" ++ [Re.PRep 4 Re.CDigit] ++ Re.lit "-" ++ [Re.PRep 2 Re.CDigit]
      ++ Re.lit "-" ++ [Re.PRep 2 Re.CDigit] ++ Re.lit " "
      ++ [Re.PRep 2 Re.CDigit] ++ Re.lit ":" ++ [Re.PRep 2 Re.CDigit]
      ++ Re.lit ":" ++ [Re.PRep 2 Re.CDigit];
    Re.lit "_" ++ [Re.PRep 14 Re.CDigit] ].

Definition file_name_of (f : file) : string :=
  match f with
  | ZipExtFile name _ => name
  | Path p => p
  end.

Definition _read_file (f : file) (join_similar : bool)
  (kwargs : gmap string pyval) : M (string * option DataFrame) :=
  let file_name := file_name_of f in
  try_except
    (let ext := snd (OsPath.splitext file_name) in
     match data_formats !! ext with
     | None => raise (UnsupportedFormatError ("Unsupported file format: " +:+ ext))
     | Some read_func =>
         emit (EvDecode file_name) ;;;
         df <- lift (read_func f kwargs) ;;
         ret (file_name, df)
     end)
    (fun e => raise e).

(** [executor.map(f, items)] inside [with ThreadPoolExecutor()]: every
    task has run when the block is left, their events interleaved by the
    pool; the results are handed out in the order of [items], a task
    that raised raising again when its result is asked for. *)
Definition executor_map {A B} (f : A -> M B) (items : list A)
  : list event * list (result B) :=
  (scheduler w (map (fun x => trace (f x)) items),
   map (fun x => outcome (f x)) items).

(** The key of a loaded file. *)
Definition key_of (file_name : string) (join_similar : bool) : string :=
  let base_name := fst (OsPath.splitext (OsPath.basename file_name)) in
  let base_name :=
    if join_similar then Re.sub_empty join_pattern base_name else base_name in
  "df_" +:+ base_name.

(** The [for file_name, df in results] loop. *)
Fixpoint collect (join_similar : bool)
  (results : list (result (string * option DataFrame)))
  (dataframes : gmap string DataFrame) : result (gmap string DataFrame) :=
  match results with
  | [] => Ok dataframes
  | Raise e :: _ => Raise e
  | Ok (file_name, None) :: results' => collect join_similar results' dataframes
  | Ok (file_name, Some df) :: results' =>
      let key := key_of file_name join_similar in
      match dataframes !! key with
      | Some old =>
          if join_similar then
            rbind (Polars.concat old df) (fun joined =>
              collect join_similar results' (<[key := joined]> dataframes))
          else collect join_similar results' (<[key := df]> dataframes)
      | None => collect join_similar results' (<[key := df]> dataframes)
      end
  end.

Definition _read_files_parallel (files : list file) (join_similar : bool)
  (kwargs : gmap string pyval) : M (gmap string DataFrame) :=
  let '(t, results) :=
    executor_map (fun f => _read_file f join_similar kwargs) files in
  (t, collect join_similar results ∅).

Definition _read_from_directory (directory_path : string) (join_similar : bool)
  (kwargs : gmap string pyval) : M (gmap string DataFrame) :=
  names <- listdir directory_path ;;
  let files :=
    map Path (List.filter isfile (map (OsPath.join directory_path) names)) in
  _read_files_parallel files join_similar kwargs.

Definition _read_from_zip (zip_source : source) (join_similar : bool)
  (kwargs : gmap string pyval) : M (gmap string DataFrame) :=
  files <- match zip_source with
           | SrcStr p =>
               members <- ZipFile_path p ;;
               ret (map (fun m => ZipExtFile (fst m) (snd m)) members)
           | SrcBytes b =>
               members <- ZipFile_bytes b ;;
               ret (map (fun m => ZipExtFile (fst m) (snd m)) members)
           | SrcOther _ => raise (ValueError "Invalid zip source type")
           end ;;
  _read_files_parallel files join_similar kwargs.

(** [isinstance(source, str) and os.path.isdir(source)] *)
Definition is_directory_source (src : source) : bool :=
  match src with
  | SrcStr p => isdir p
  | _ => false
  end.

(** [isinstance(source, (str, bytes)) and
     (os.path.isfile(source) or isinstance(source, bytes))] *)
Definition is_zip_source (src : source) : bool :=
  match src with
  | SrcStr p => isfile p
  | SrcBytes b => isfile (string_of_list_byte b) || true
  | SrcOther _ => false
  end.

(** The dict comprehension of the deduplication step, over
    [duplicated_subset_dict.items()]. *)
Fixpoint dedup_items (data : gmap string DataFrame)
  (items : list (string * option (list string)))
  (new : gmap string DataFrame) : result (gmap string DataFrame) :=
  match items with
  | [] => Ok new
  | (k, v) :: items' =>
      let key := "df_" +:+ k in
      let subset := match v with Some (c :: cs) => Some (c :: cs) | _ => None end in
      rbind (match data !! key with
             | Some df => unique df subset
             | None => Raise (KeyError key)
             end)
        (fun df => dedup_items data items' (<[key := df]> new))
  end.

(** The dict comprehension of the filtering step, over
    [filter_subset.items()]. *)
Fixpoint filter_items (data : gmap string DataFrame)
  (items : list (string * list filter_rule))
  (new : gmap string DataFrame) : M (gmap string DataFrame) :=
  match items with
  | [] => ret new
  | (k, v) :: items' =>
      let key := "df_" +:+ k in
      df <- match data !! key with
            | Some df => apply_filters df v key
            | None => raise (KeyError key)
            end ;;
      filter_items data items' (<[key := df]> new)
  end.

Definition nonempty {A} (d : option (list A)) : bool :=
  match d with Some (_ :: _) => true | _ => false end.

(** [read_data], first block: the source is classified and loaded. *)
Definition load (src : source) (join_similar : bool)
  (kwargs : gmap string pyval) : M (gmap string DataFrame) :=
  if is_directory_source src then
    _read_from_directory (match src with SrcStr p => p | _ => "" end)
      join_similar kwargs
  else if is_zip_source src then
    _read_from_zip src join_similar kwargs
  else raise (ValueError "Unsupported source type").

(** [read_data], second block: [if duplicated_subset_dict: ...]. *)
Definition dedup_step (data : gmap string DataFrame)
  (duplicated_subset_dict : option (list (string * option (list string))))
  : M (gmap string DataFrame) :=
  if nonempty duplicated_subset_dict then
    try_except
      (lift (dedup_items data (default [] duplicated_subset_dict) ∅))
      (fun e => raise e)
  else ret data.

(** [read_data], third block: [if filter_subset: ...]. *)
Definition filter_step (data : gmap string DataFrame)
  (filter_subset : option (list (string * list filter_rule)))
  : M (gmap string DataFrame) :=
  if nonempty filter_subset then
    try_except
      (filter_items data (default [] filter_subset) ∅)
      (fun e => raise e)
  else ret data.

Definition read_data (src : source) (join_similar : bool)
  (duplicated_subset_dict : option (list (string * option (list string))))
  (filter_subset : option (list (string * list filter_rule)))
  (kwargs : gmap string pyval) : M (gmap string DataFrame) :=
  data <- load src join_similar kwargs ;;
  data <- dedup_step data duplicated_subset_dict ;;
  data <- filter_step data filter_subset ;;
  ret data.

End Reader.

(* ===================================================================== *)
(** ** A small world to run the reader in *)
(* ===================================================================== *)

Module Demo.
Import Polars.

Definition b (s : string) : bytes := list_byte_of_string s.

Definition ints (l : list Z) : Series := mkSeries Int64 (map (fun z => Some (VInt z)) l).

Definition jan : DataFrame :=
  [("id", ints [1; 2]%Z); ("amount", ints [10; 20]%Z)].
Definition feb : DataFrame :=
  [("id", ints [3]%Z); ("amount", ints [30]%Z)].
Definition people : DataFrame := [("age", ints [10; 18; 64; 65; 70]%Z)].
Definition dup : DataFrame :=
  [("id", ints [1; 1; 2]%Z); ("v", ints [7; 8; 9]%Z)].

(** The content of the files, and the frame each decodes to. *)
Definition decoded : list (string * DataFrame) :=
  [("jan", jan); ("feb", feb); ("people", people); ("dup", dup)].

Fixpoint assoc {A} (k : string) (l : list (string * A)) : option A :=
  match l with
  | [] => None
  | (k', v) :: l' => if String.eqb k k' then Some v else assoc k l'
  end.

Definition archive : list (string * bytes) := [("a.csv", b "jan"); ("a.json", b "feb")].
Definition archive2 : list (string * bytes) := [("a.csv", b "jan"); ("b.json", b "feb")].
Definition archive3 : list (string * bytes) := [("b.json", b "feb"); ("a.csv", b "jan")].

Definition tree : gmap string node :=
  list_to_map
    [("/data", Dir ["sales_2023-01-01 00:00:00.csv"; "sales_2023-02-01 00:00:00.csv"; "sub"]);
     ("/data/sales_2023-01-01 00:00:00.csv", File (b "jan"));
     ("/data/sales_2023-02-01 00:00:00.csv", File (b "feb"));
     ("/data/sub", Dir []);
     ("/flat", Dir ["people.csv"; "dup.csv"]);
     ("/parts", Dir ["sales_1.csv"; "sales_2.csv"]);
     ("/parts/sales_1.csv", File (b "jan"));
     ("/parts/sales_2.csv", File (b "feb"));
     ("/flat/people.csv", File (b "people"));
     ("/flat/dup.csv", File (b "dup"));
     ("/a.zip", File (b "zip:a"));
     ("/b.zip", File (b "zip:b"))].

Definition unzip (content : bytes) : result (list (string * bytes)) :=
  match assoc (string_of_list_byte content)
          [("zip:a", archive); ("zip:b", archive2); ("zip:c", archive3)] with
  | Some members => Ok members
  | None => Raise (Exn "BadZipFile" "File is not a zip file")
  end.

Definition content_of (f : file) : result bytes :=
  match f with
  | ZipExtFile _ c => Ok c
  | Path p =>
      match tree !! p with
      | Some (File c) => Ok c
      | _ => Raise (Exn "FileNotFoundError" p)
      end
  end.

Definition decode (r : pl_reader) (f : file) (kwargs : gmap string pyval)
  : result (option DataFrame) :=
  rbind (content_of f) (fun c =>
    match assoc (string_of_list_byte c) decoded with
    | Some df => Ok (Some df)
    | None => Raise (Exn "ComputeError" "could not parse the file")
    end).

(** Tasks run one after the other, in the order they were submitted. *)
Definition world : world := mkWorld tree unzip decode (@List.concat event).

End Demo.

(* ===================================================================== *)
(** ** Notions used in the statements *)
(* ===================================================================== *)

(** The two checks [apply_filters] makes on a rule before it builds the
    rule's condition. *)
Definition known_operation (r : filter_rule) : bool :=
  in_tuple (operation r) __available_operations.

Definition list_for_scalar_operation (r : filter_rule) : bool :=
  negb (in_tuple (operation r) ["notin"; "in"]) && is_list (values r).

Definition accepted (r : filter_rule) : bool :=
  known_operation r && negb (list_for_scalar_operation r).

(** The event a rule leaves when its condition is evaluated. *)
Definition condition_event (r : filter_rule) : event :=
  EvCondition (column r) (operation r) (values r).

(** The call of [_build_filter_condition] made for a rule. *)
Definition build (df : Polars.DataFrame) (r : filter_rule) : M Polars.bools :=
  _build_filter_condition df (column r) (operation r) (values r).

(** How a rule's condition enters the query. *)
Definition extend (r : filter_rule) (query : Polars.expr)
  (condition : Polars.bools) : Polars.expr :=
  let operator := default "and" (operator r) in
  if String.eqb operator "and" then Polars.and_ query (Polars.of_series condition)
  else if String.eqb operator "or" then Polars.or_ query (Polars.of_series condition)
  else query.

(** A message names [what] when [what] occurs in it. *)
Definition names (msg what : string) : Prop := PyStr.contains what msg = true.

(** The prefix [apply_filters] puts before the message of an exception. *)
Definition wrapped (df_name msg : string) : string :=
  "Error in filter configuration for " +:+ df_name +:+ ": " +:+ msg.

(** Is an event the evaluation of some filter condition? *)
Definition is_condition (ev : event) : bool :=
  match ev with EvCondition _ _ _ => true | _ => false end.

(** A source the specification accepts: an existing directory path, an
    existing file path, or a byte buffer. *)
Definition supported_source (w : world) (src : source) : bool :=
  match src with
  | SrcStr p => isdir w p || isfile w p
  | SrcBytes _ => true
  | SrcOther _ => false
  end.

(** The keys a dict argument of [read_data] names. *)
Definition named_keys {A} (items : list (string * A)) : gset string :=
  list_to_set (map (fun kv => "df_" +:+ fst kv) items).

(** A name without a path separator. *)
Definition plain_name (n : string) : bool :=
  PyStr.all_chars (fun a => negb (Ascii.eqb a "/")) n.

(** The decoder the specification registers for an extension; extensions
    are compared as they are, leading dot and case included. *)
Definition registered_decoder (w : world) (ext : string)
  : option (file -> gmap string pyval -> result (option Polars.DataFrame)) :=
  if String.eqb ext ".csv" then Some (_read_csv w)
  else if String.eqb ext ".json" then Some (_read_json w)
  else if String.eqb ext ".parquet" then Some (_read_parquet w)
  else if String.eqb ext ".xlsx" then Some (_read_excel w)
  else None.

(** *** Stems and their normalisation *)


(** What [re.sub] makes of a stem when files are joined. *)
Definition normalize (s : string) : string := Re.sub_empty join_pattern s.

Definition starts_with_digit (s : string) : bool :=
  match s with
  | String a _ => Re.is_digit a
  | EmptyString => false
  end.

(** No underscore of the string is followed by a digit. *)
Fixpoint no_group (s : string) : bool :=
  match s with
  | EmptyString => true
  | String a r => negb (Ascii.eqb a "_" && starts_with_digit r) && no_group r
  end.

(** The next [k] characters are digits and the one after them is not. *)
Fixpoint digit_run (k : nat) (s : string) : bool :=
  match k with
  | O => negb (starts_with_digit s)
  | S k' =>
      match s with
      | String a r => Re.is_digit a && digit_run k' r
      | EmptyString => false
      end
  end.

(** *** Filter rules *)

(** The rule with its operator written out. *)
Definition with_operator (r : filter_rule) (op : string) : filter_rule :=
  mkRule (column r) (operation r) (values r) (Some op).

(** The rule with other values. *)
Definition with_values (r : filter_rule) (v : pyval) : filter_rule :=
  mkRule (column r) (operation r) v (operator r).

(** All columns of the frame have the height of the frame. *)
Definition well_formed (df : Polars.DataFrame) : bool :=
  forallb (fun c => (length (Polars.cells (snd c)) =? Polars.height df)%nat) df.

(** A mask read at height [h]: a literal stands for [h] copies of it. *)
Definition expand (h : nat) (m : Polars.mask) : Polars.bools :=
  match m with
  | Polars.Broadcast b => replicate h b
  | Polars.PerRow l => l
  end.

Definition fits_height (h : nat) (m : Polars.mask) : Prop :=
  match m with
  | Polars.Broadcast _ => True
  | Polars.PerRow l => length l = h
  end.

(** Two queries that select the same rows of a frame of height [h]. *)
Definition same_rows (h : nat) (q1 q2 : Polars.expr) : Prop :=
  exists m1 m2,
    Polars.eval q1 = Ok m1 /\ Polars.eval q2 = Ok m2
    /\ fits_height h m1 /\ fits_height h m2
    /\ expand h m1 = expand h m2.

(** *** Loading *)

(** The key a result of [_read_file] is stored under, when it carries a
    table. *)
Definition stored_key (join_similar : bool)
  (r : result (string * option Polars.DataFrame)) : option string :=
  match r with
  | Ok (file_name, Some _) => Some (key_of file_name join_similar)
  | _ => None
  end.

(** The rows the results bring for a key. *)
Fixpoint rows_for (key : string) (join_similar : bool)
  (results : list (result (string * option Polars.DataFrame))) : nat :=
  match results with
  | [] => 0
  | Ok (file_name, Some df) :: results' =>
      (if String.eqb (key_of file_name join_similar) key
       then Polars.height df else 0)
      + rows_for key join_similar results'
  | _ :: results' => rows_for key join_similar results'
  end.

(** The rows a collection has under a key; none when the key is absent. *)
Definition height_at (data : gmap string Polars.DataFrame) (key : string) : nat :=
  from_option Polars.height 0%nat (data !! key).



(** *** The passes *)

(** The [subset] handed to [unique]: [v if v else None]. *)
Definition subset_of (v : option (list string)) : option (list string) :=
  match v with
  | Some (c :: cs) => Some (c :: cs)
  | _ => None
  end.

(* ===================================================================== *)
(** ** Computations *)
(* ===================================================================== *)

Section Computations.
Context {A B C : Type}.
Local Open Scope py_scope.

Lemma bind_assoc (m : M A) (f : A -> M B) (g : B -> M C) :
  bind (bind m f) g = bind m (fun x => bind (f x) g).
Proof.
  destruct m as [t [a|e]]; simpl; [|done].
  destruct (f a) as [t1 [b1|e1]]; simpl; [|done].
  destruct (g b1) as [t2 r2]. by rewrite app_assoc.
Qed.

Lemma bind_ext (m : M A) (f g : A -> M B) :
  (forall a, f a = g a) -> bind m f = bind m g.
Proof. intros H. destruct m as [t [a|e]]; simpl; [|done]. by rewrite H. Qed.

Lemma outcome_bind (m : M A) (f : A -> M B) :
  outcome (bind m f) = rbind (outcome m) (fun a => outcome (f a)).
Proof. destruct m as [t [a|e]]; simpl; [|done]. by destruct (f a). Qed.

Lemma trace_bind_ok (m : M A) (f : A -> M B) a :
  outcome m = Ok a -> trace (bind m f) = trace m ++ trace (f a).
Proof. destruct m as [t [a'|e]]; simpl; [|done]. intros [= ->]. by destruct (f a). Qed.

Lemma trace_bind_raise (m : M A) (f : A -> M B) e :
  outcome m = Raise e -> trace (bind m f) = trace m.
Proof. destruct m as [t [a'|e']]; simpl; done. Qed.

Lemma outcome_try_except (m : M A) (h : exn -> M A) :
  outcome (try_except m h) =
  match outcome m with
  | Ok a => Ok a
  | Raise e => outcome (h e)
  end.
Proof. destruct m as [t [a|e]]; simpl; [done|]. by destruct (h e). Qed.

Lemma trace_try_except_raise (m : M A) (f : exn -> exn) :
  trace (try_except m (fun e => raise (f e))) = trace m.
Proof. destruct m as [t [a|e]]; simpl; [done|]. apply app_nil_r. Qed.

End Computations.

Lemma try_except_reraise {A} (m : M A) : try_except m (fun e => raise e) = m.
Proof. destruct m as [t [a|e]]; simpl; [done|]. by rewrite app_nil_r. Qed.

(* ===================================================================== *)
(** ** The filter engine *)
(* ===================================================================== *)

Section FilterEngine.
Import Polars.
Local Open Scope py_scope.

Variable df : DataFrame.
Variable df_name : string.

Lemma apply_filters_loop_cons r filters query :
  apply_filters_loop df df_name (r :: filters) query =
  if negb (known_operation r) then
    raise (FilterConfigurationError (not_allowed_msg (operation r)))
  else if list_for_scalar_operation r then
    raise (FilterConfigurationError (list_values_msg df_name))
  else
    bind (build df r) (fun condition =>
      apply_filters_loop df df_name filters (extend r query condition)).
Proof. reflexivity. Qed.

Lemma apply_filters_loop_app pre post query :
  apply_filters_loop df df_name (pre ++ post) query =
  bind (apply_filters_loop df df_name pre query)
       (fun q => apply_filters_loop df df_name post q).
Proof.
  revert query. induction pre as [|r pre IH]; intros query.
  - simpl. by destruct (apply_filters_loop df df_name post query).
  - rewrite <- app_comm_cons, !apply_filters_loop_cons.
    destruct (negb (known_operation r)); [done|].
    destruct (list_for_scalar_operation r); [done|].
    rewrite bind_assoc. apply bind_ext. intros c. apply IH.
Qed.

(** A condition leaves at most its own event, and exactly that one when
    it is built. *)
Lemma build_trace r :
  trace (build df r) = [] \/ trace (build df r) = [condition_event r].
Proof.
  unfold build, _build_filter_condition, condition_event.
  destruct (get_column df (column r)) as [s|e];
    repeat (case_match; simplify_eq/=); auto.
Qed.

Lemma build_ok_trace r c :
  outcome (build df r) = Ok c -> trace (build df r) = [condition_event r].
Proof.
  unfold build, _build_filter_condition, condition_event.
  destruct (get_column df (column r)) as [s|e];
    repeat (case_match; simplify_eq/=); done.
Qed.

Lemma condition_event_inj r r' :
  condition_event r = condition_event r' ->
  list_for_scalar_operation r = list_for_scalar_operation r'
  /\ known_operation r = known_operation r'.
Proof.
  unfold condition_event, list_for_scalar_operation, known_operation.
  by intros [= _ -> ->].
Qed.

(** Only accepted rules are ever evaluated. *)
Lemma loop_trace_accepted filters query ev :
  ev ∈ trace (apply_filters_loop df df_name filters query) ->
  exists r, r ∈ filters /\ accepted r = true /\ ev = condition_event r.
Proof.
  revert query. induction filters as [|h filters IH]; intros query.
  - simpl. by intros ?%elem_of_nil.
  - rewrite apply_filters_loop_cons. unfold accepted.
    destruct (known_operation h) eqn:Hk; simpl; [|by intros ?%elem_of_nil].
    destruct (list_for_scalar_operation h) eqn:Hl; simpl; [by intros ?%elem_of_nil|].
    destruct (outcome (build df h)) as [c|e] eqn:Hb.
    + rewrite (trace_bind_ok _ _ c Hb), (build_ok_trace h c Hb).
      intros [->|Hin]%elem_of_cons.
      * exists h. rewrite Hk, Hl. split_and!; [left|done|done].
      * destruct (IH _ Hin) as (r & ? & ? & ?). exists r. split_and!; [by right|done|done].
    + rewrite (trace_bind_raise _ _ e Hb).
      destruct (build_trace h) as [->| ->]; [by intros ?%elem_of_nil|].
      intros ->%list_elem_of_singleton.
      exists h. rewrite Hk, Hl. split_and!; [left|done|done].
Qed.

(** When the loop comes through, every rule has been evaluated once, in
    order. *)
Lemma loop_ok_trace filters query q :
  outcome (apply_filters_loop df df_name filters query) = Ok q ->
  trace (apply_filters_loop df df_name filters query) = map condition_event filters.
Proof.
  revert query. induction filters as [|h filters IH]; intros query; [done|].
  rewrite apply_filters_loop_cons.
  destruct (negb (known_operation h)); [done|].
  destruct (list_for_scalar_operation h); [done|].
  rewrite outcome_bind.
  destruct (outcome (build df h)) as [c|e] eqn:Hb; simpl; [|done].
  intros Hq. rewrite (trace_bind_ok _ _ c Hb), (build_ok_trace h c Hb).
  simpl. f_equal. by apply (IH _ Hq).
Qed.

(** Whatever is raised inside [apply_filters] leaves it as a
    [FilterConfigurationError] carrying the message, and with the same
    trace. *)
Lemma apply_filters_outcome filters :
  outcome (apply_filters df filters df_name) =
  match outcome (apply_filters_loop df df_name filters (lit true)) with
  | Ok query =>
      match filter df query with
      | Ok out => Ok out
      | Raise e => Raise (FilterConfigurationError (wrapped df_name (exn_msg e)))
      end
  | Raise e => Raise (FilterConfigurationError (wrapped df_name (exn_msg e)))
  end.
Proof.
  unfold apply_filters. rewrite outcome_try_except, outcome_bind.
  destruct (outcome (apply_filters_loop df df_name filters (lit true))); simpl; [|done].
  by destruct (filter df a).
Qed.

Lemma apply_filters_trace filters :
  trace (apply_filters df filters df_name) =
  trace (apply_filters_loop df df_name filters (lit true)).
Proof.
  unfold apply_filters.
  rewrite (trace_try_except_raise _
    (fun e => FilterConfigurationError
       ("Error in filter configuration for " +:+ df_name +:+ ": " +:+ exn_msg e))).
  destruct (outcome (apply_filters_loop df df_name filters (lit true))) as [q|e] eqn:H.
  - rewrite (trace_bind_ok _ _ q H). apply app_nil_r.
  - by rewrite (trace_bind_raise _ _ e H).
Qed.

(** A rule that fails a check stops the loop, unless an earlier rule
    already has. *)
Lemma loop_stops pre r post query :
  accepted r = false ->
  exists e, outcome (apply_filters_loop df df_name (pre ++ r :: post) query) = Raise e
    /\ trace (apply_filters_loop df df_name (pre ++ r :: post) query)
       = trace (apply_filters_loop df df_name pre query).
Proof.
  intros Hr. rewrite apply_filters_loop_app.
  assert (exists e, forall q, apply_filters_loop df df_name (r :: post) q = ([], Raise e))
    as [e He].
  { unfold accepted in Hr.
    destruct (known_operation r) eqn:Hk.
    - destruct (list_for_scalar_operation r) eqn:Hl; [|done].
      eexists. intros q. by rewrite apply_filters_loop_cons, Hk, Hl.
    - eexists. intros q. by rewrite apply_filters_loop_cons, Hk. }
  destruct (outcome (apply_filters_loop df df_name pre query)) as [q|e'] eqn:Hpre.
  - exists e. rewrite outcome_bind, Hpre, (trace_bind_ok _ _ q Hpre).
    cbn [rbind]. rewrite !He. simpl. by rewrite app_nil_r.
  - exists e'. by rewrite outcome_bind, Hpre, (trace_bind_raise _ _ e' Hpre).
Qed.

End FilterEngine.

(** *** Messages *)

Lemma prefix_app (n s : string) : String.prefix n (n +:+ s) = true.
Proof.
  induction n as [|a n IH]; simpl; [by destruct s|].
  by destruct (ascii_dec a a).
Qed.

Lemma names_here (n s : string) : names (n +:+ s) n.
Proof.
  unfold names. generalize (prefix_app n s).
  destruct (n +:+ s); simpl; by intros ->.
Qed.

Lemma names_after (a s n : string) : names s n -> names (a +:+ s) n.
Proof.
  unfold names. intros H. induction a as [|c a IH]; simpl; [done|].
  rewrite IH. apply orb_true_r.
Qed.

(* ===================================================================== *)
(** ** Paths *)
(* ===================================================================== *)

Section Paths.
Import PyStr.

Lemma rfind_from_app c x s i last :
  rfind_from c (x +:+ s) i last
  = rfind_from c s (i + Z.of_nat (String.length x)) (rfind_from c x i last).
Proof.
  revert i last. induction x as [|a x IH]; intros i last; simpl.
  - by rewrite Z.add_0_r.
  - rewrite IH. f_equal. lia.
Qed.

Lemma rfind_from_absent c n i last :
  all_chars (fun a => negb (Ascii.eqb a c)) n = true ->
  rfind_from c n i last = last.
Proof.
  revert i. induction n as [|a n IH]; intros i; simpl; [done|].
  intros [Ha Hn]%andb_prop. apply negb_true_iff in Ha. rewrite Ha. by apply IH.
Qed.

Lemma drop_str_app x s : drop_str (String.length x) (x +:+ s) = s.
Proof. induction x as [|a x IH]; simpl; [by destruct s|done]. Qed.

Lemma append_assoc (x y z : string) : (x +:+ y) +:+ z = x +:+ (y +:+ z).
Proof.
  induction x as [|a x IH]; [done|].
  change (String a ((x +:+ y) +:+ z) = String a (x +:+ (y +:+ z))).
  by rewrite IH.
Qed.

Lemma endswith_split c d :
  endswith c d = true -> exists x, d = x +:+ String c "".
Proof.
  induction d as [|a d IH]; simpl; [done|].
  destruct d as [|a' d'].
  - intros ->%Ascii.eqb_eq. by exists "".
  - intros [x ->]%IH. by exists (String a x).
Qed.

Lemma basename_plain n : plain_name n = true -> OsPath.basename n = n.
Proof.
  intros Hn. unfold OsPath.basename, rfind.
  by rewrite (rfind_from_absent _ _ _ _ Hn).
Qed.

Lemma basename_after_sep x n :
  plain_name n = true -> OsPath.basename (x +:+ String "/" n) = n.
Proof.
  intros Hn. unfold OsPath.basename, rfind, slice_from.
  rewrite rfind_from_app. simpl rfind_from.
  rewrite (rfind_from_absent _ _ _ _ Hn).
  replace (Z.to_nat (0 + Z.of_nat (String.length x) + 1))
    with (String.length (x +:+ String "/" "")).
  - replace (x +:+ String "/" n) with ((x +:+ String "/" "") +:+ n)
      by apply append_assoc.
    apply drop_str_app.
  - clear. induction x as [|a x IH]; simpl; [done|].
    rewrite IH. lia.
Qed.

(** The last component of [os.path.join(d, n)] is [n]. *)
Lemma basename_join d n :
  plain_name n = true -> OsPath.basename (OsPath.join d n) = n.
Proof.
  intros Hn. unfold OsPath.join.
  destruct (startswith "/" n) eqn:Hs.
  { destruct n as [|a n]; [done|].
    unfold plain_name in Hn. cbn [all_chars startswith] in Hs, Hn.
    by rewrite Hs in Hn. }
  destruct (String.eqb d "") eqn:Hd.
  { apply String.eqb_eq in Hd as ->. simpl. by apply basename_plain. }
  destruct (endswith "/" d) eqn:He; simpl.
  - apply endswith_split in He as [x ->].
    rewrite append_assoc. by apply basename_after_sep.
  - by apply basename_after_sep.
Qed.

End Paths.

(* ===================================================================== *)
(** ** The loader and the passes of [read_data] *)
(* ===================================================================== *)

Lemma bind_ret_r {A} (m : M A) : bind m ret = m.
Proof. destruct m as [t [a|e]]; simpl; [|done]. by rewrite app_nil_r. Qed.

Section ReaderFacts.
Import Polars.

Variable w : world.

Lemma read_data_outcome src js dd fsub kw :
  outcome (read_data w src js dd fsub kw) =
  rbind (outcome (load w src js kw)) (fun data =>
  rbind (outcome (dedup_step data dd)) (fun data' =>
  outcome (filter_step data' fsub))).
Proof.
  unfold read_data. rewrite outcome_bind.
  destruct (outcome (load w src js kw)) as [data|e]; [|done]. cbn [rbind].
  rewrite outcome_bind.
  destruct (outcome (dedup_step data dd)) as [data'|e]; [|done]. cbn [rbind].
  by rewrite bind_ret_r.
Qed.

Lemma read_data_plain src js kw :
  read_data w src js None None kw
  = load w src js kw.
Proof.
  unfold read_data, dedup_step, filter_step. cbn [nonempty].
  destruct (load w src js kw) as [t [data|e]]; simpl; [|done].
  by rewrite !app_nil_r.
Qed.

Lemma read_files_parallel_outcome files js kw :
  outcome (_read_files_parallel w files js kw)
  = collect js (map (fun f => outcome (_read_file w f js kw)) files) ∅.
Proof. reflexivity. Qed.

Lemma load_directory d names js kw :
  fs w !! d = Some (Dir names) ->
  outcome (load w (SrcStr d) js kw)
  = outcome (_read_files_parallel w
               (map Path (List.filter (isfile w) (map (OsPath.join d) names))) js kw).
Proof.
  intros Hd. unfold load, is_directory_source, isdir. rewrite Hd.
  unfold _read_from_directory. rewrite outcome_bind.
  unfold listdir. by rewrite Hd.
Qed.

Lemma load_bytes content members js kw :
  zip_members w content = Ok members ->
  outcome (load w (SrcBytes content) js kw)
  = outcome (_read_files_parallel w
               (map (fun m => ZipExtFile (fst m) (snd m)) members) js kw).
Proof.
  intros Hz. unfold load, is_directory_source, is_zip_source.
  rewrite orb_true_r.
  unfold _read_from_zip. rewrite outcome_bind.
  unfold ZipFile_bytes. by rewrite Hz.
Qed.

(** *** Two files *)

Lemma collect_two_no_join n1 (df1 : DataFrame) n2 (df2 : DataFrame) :
  collect false [Ok (n1, Some df1); Ok (n2, Some df2)] ∅
  = Ok (<[key_of n2 false := df2]> (<[key_of n1 false := df1]> ∅)).
Proof.
  simpl. rewrite lookup_empty.
  by destruct (<[key_of n1 false := df1]> (∅ : gmap string DataFrame) !! key_of n2 false).
Qed.

Lemma collect_two_distinct js n1 (df1 : DataFrame) n2 (df2 : DataFrame) :
  key_of n1 js <> key_of n2 js ->
  collect js [Ok (n1, Some df1); Ok (n2, Some df2)] ∅
  = Ok (<[key_of n2 js := df2]> (<[key_of n1 js := df1]> ∅)).
Proof.
  intros Hne. simpl. rewrite lookup_empty.
  by rewrite lookup_insert_ne, lookup_empty.
Qed.

(** With [join_similar], two files with one key are concatenated. *)
Lemma collect_two_joined n1 (df1 : DataFrame) n2 (df2 : DataFrame) :
  key_of n1 true = key_of n2 true ->
  collect true [Ok (n1, Some df1); Ok (n2, Some df2)] ∅
  = rbind (concat df1 df2) (fun joined => Ok {[key_of n1 true := joined]}).
Proof.
  intros Hk. simpl. rewrite lookup_empty, <- Hk, lookup_insert_eq.
  destruct (concat df1 df2) as [joined|e]; simpl; [|done].
  by rewrite insert_insert_eq.
Qed.

Lemma height_concat (a b out : DataFrame) :
  concat a b = Ok out -> height out = (height a + height b)%nat.
Proof.
  unfold concat. case_bool_decide as Hs; [|done]. intros [= <-].
  destruct a as [|[n s] a], b as [|[n' s'] b]; try done.
  simpl. apply length_app.
Qed.

(** *** The passes keep the named tables only *)

Lemma named_keys_nil {A} (seen known : gset string) :
  seen = seen ∪ named_keys (@nil (string * A))
  /\ named_keys (@nil (string * A)) ⊆ known.
Proof.
  unfold named_keys. simpl. split; [by rewrite union_empty_r_L|].
  apply empty_subseteq.
Qed.

Lemma named_keys_cons {A} (seen known : gset string) k (v : A) items :
  "df_" +:+ k ∈ known -> named_keys items ⊆ known ->
  {["df_" +:+ k]} ∪ seen ∪ named_keys items = seen ∪ named_keys ((k, v) :: items)
  /\ named_keys ((k, v) :: items) ⊆ known.
Proof.
  intros Hk Hs. unfold named_keys in *. simpl. split.
  - rewrite (assoc_L (∪) seen). f_equal. apply (comm_L (∪)).
  - apply union_least; [by apply singleton_subseteq_l|done].
Qed.

Lemma dedup_items_dom data items new out :
  dedup_items data items new = Ok out ->
  dom out = dom new ∪ named_keys items /\ named_keys items ⊆ dom data.
Proof.
  revert new. induction items as [|[k v] items IH]; intros new; simpl.
  - intros [= <-]. by apply named_keys_nil.
  - destruct (data !! ("df_" +:+ k)) as [df|] eqn:Hk; [|done]. simpl.
    destruct (unique df _) as [df'|e]; [|done]. simpl.
    intros [Hd Hs]%IH. apply elem_of_dom_2 in Hk.
    rewrite Hd, dom_insert_L. by apply named_keys_cons.
Qed.

Lemma filter_items_dom data items new out :
  outcome (filter_items data items new) = Ok out ->
  dom out = dom new ∪ named_keys items /\ named_keys items ⊆ dom data.
Proof.
  revert new. induction items as [|[k v] items IH]; intros new.
  - simpl. intros [= <-]. by apply named_keys_nil.
  - cbn [filter_items]. rewrite outcome_bind.
    destruct (data !! ("df_" +:+ k)) as [df|] eqn:Hk; [|done].
    destruct (outcome (apply_filters df v ("df_" +:+ k))) as [df'|e]; [|done].
    cbn [rbind].
    intros [Hd Hs]%IH. apply elem_of_dom_2 in Hk.
    rewrite Hd, dom_insert_L. by apply named_keys_cons.
Qed.

End ReaderFacts.

(* ===================================================================== *)
(** ** Theorems: the filter engine *)
(* ===================================================================== *)

(** C6. With an empty rule list [apply_filters] returns the table it was
    given, with the same rows and content, and evaluates nothing. *)
Theorem apply_filters_no_rules (df : Polars.DataFrame) (df_name : string) :
  apply_filters df [] df_name = ([], Ok df).
Proof. reflexivity. Qed.

(** C8. A rule whose operation is neither 'in' nor 'notin' and whose values
    are a list makes [apply_filters] raise [FilterConfigurationError],
    wherever the rule stands in the list, and the condition of that rule is
    never evaluated. *)
Theorem apply_filters_rejects_list_values
  (df : Polars.DataFrame) (df_name : string) (pre : list filter_rule)
  (r : filter_rule) (post : list filter_rule) :
  list_for_scalar_operation r = true ->
  (exists msg, outcome (apply_filters df (pre ++ r :: post) df_name)
               = Raise (FilterConfigurationError msg))
  /\ condition_event r ∉ trace (apply_filters df (pre ++ r :: post) df_name).
Proof.
  intros Hr.
  assert (accepted r = false) as Hacc.
  { unfold accepted. rewrite Hr. apply andb_false_r. }
  destruct (loop_stops df df_name pre r post (Polars.lit true) Hacc) as (e & He & Ht).
  split.
  - rewrite apply_filters_outcome, He. eauto.
  - rewrite apply_filters_trace, Ht.
    intros (r' & _ & Hacc' & Heq)%loop_trace_accepted.
    apply condition_event_inj in Heq as [Hl _].
    unfold accepted in Hacc'. rewrite <- Hl, Hr in Hacc'.
    by rewrite andb_false_r in Hacc'.
Qed.

Lemma apply_filters_rejects_list_values_witness :
  let r := mkRule "age" "==" (PList [SInt 18; SInt 64]) None in
  list_for_scalar_operation r = true
  /\ (exists msg, outcome (apply_filters Demo.people ([] ++ r :: []) "df_people")
                  = Raise (FilterConfigurationError msg))
  /\ condition_event r ∉ trace (apply_filters Demo.people ([] ++ r :: []) "df_people").
Proof.
  split; [reflexivity|].
  apply (apply_filters_rejects_list_values Demo.people "df_people" []
           (mkRule "age" "==" (PList [SInt 18; SInt 64]) None) []).
  reflexivity.
Defined.

(** C5, as the source has it.  A rule with an unknown operation makes
    [apply_filters] raise [FilterConfigurationError]; the rules before it
    are checked and evaluated first, so only conditions of earlier rules
    have been evaluated (none when the rule comes first), and when those
    earlier rules come through, the message names the operation and the
    allowed ones and the conditions evaluated are exactly theirs. *)
Theorem apply_filters_unknown_operation
  (df : Polars.DataFrame) (df_name : string) (pre : list filter_rule)
  (bad : filter_rule) (post : list filter_rule) :
  known_operation bad = false ->
  (exists msg, outcome (apply_filters df (pre ++ bad :: post) df_name)
               = Raise (FilterConfigurationError msg))
  /\ (forall ev, ev ∈ trace (apply_filters df (pre ++ bad :: post) df_name) ->
        exists r, r ∈ pre /\ ev = condition_event r)
  /\ (forall query,
        outcome (apply_filters_loop df df_name pre (Polars.lit true)) = Ok query ->
        let msg := wrapped df_name (not_allowed_msg (operation bad)) in
        apply_filters df (pre ++ bad :: post) df_name
          = (map condition_event pre, Raise (FilterConfigurationError msg))
        /\ names msg (operation bad)
        /\ names msg (PyStr.join ", " __available_operations)).
Proof.
  intros Hbad.
  assert (accepted bad = false) as Hacc by (unfold accepted; by rewrite Hbad).
  destruct (loop_stops df df_name pre bad post (Polars.lit true) Hacc) as (e & He & Ht).
  split_and!.
  - rewrite apply_filters_outcome, He. eauto.
  - intros ev. rewrite apply_filters_trace, Ht.
    intros (r & ? & _ & ?)%loop_trace_accepted. eauto.
  - intros query Hpre msg. split_and!.
    + apply injective_projections.
      * change (trace (apply_filters df (pre ++ bad :: post) df_name)
                = map condition_event pre).
        rewrite apply_filters_trace, Ht. by apply (loop_ok_trace _ _ _ _ query).
      * change (outcome (apply_filters df (pre ++ bad :: post) df_name)
                = Raise (FilterConfigurationError msg)).
        rewrite apply_filters_outcome, apply_filters_loop_app, outcome_bind, Hpre.
        cbn [rbind]. by rewrite apply_filters_loop_cons, Hbad.
    + unfold msg, wrapped, not_allowed_msg.
      do 3 apply names_after. apply names_here.
    + unfold msg, wrapped, not_allowed_msg.
      do 5 apply names_after. apply names_here.
Qed.

Lemma apply_filters_unknown_operation_witness :
  let pre := [mkRule "age" ">=" (PScalar (SInt 18)) (Some "and")] in
  let bad := mkRule "age" "~" (PScalar (SInt 65)) None in
  let query := Polars.and_ (Polars.lit true)
                 (Polars.of_series [Some false; Some true; Some true; Some true; Some true]) in
  known_operation bad = false
  /\ outcome (apply_filters_loop Demo.people "df_people" pre (Polars.lit true)) = Ok query
  /\ apply_filters Demo.people (pre ++ bad :: []) "df_people"
     = ([EvCondition "age" ">=" (PScalar (SInt 18))],
        Raise (FilterConfigurationError
                 (wrapped "df_people" (not_allowed_msg "~")))).
Proof.
  split; [reflexivity|]. split; [reflexivity|].
  apply (proj2 (proj2 (apply_filters_unknown_operation Demo.people "df_people"
                         [mkRule "age" ">=" (PScalar (SInt 18)) (Some "and")]
                         (mkRule "age" "~" (PScalar (SInt 65)) None) []
                         eq_refl)) _ eq_refl).
Defined.

(** C5, as stated, fails: after a valid first rule the table has been
    evaluated by the time the unknown operation of the second is met. *)
Lemma unknown_operation_after_evaluation :
  ~ (forall (df : Polars.DataFrame) (df_name : string)
       (pre : list filter_rule) (bad : filter_rule) (post : list filter_rule),
       known_operation bad = false ->
       (exists msg, outcome (apply_filters df (pre ++ bad :: post) df_name)
                    = Raise (FilterConfigurationError msg)
                    /\ names msg (operation bad)
                    /\ names msg (PyStr.join ", " __available_operations))
       /\ existsb is_condition (trace (apply_filters df (pre ++ bad :: post) df_name))
          = false).
Proof.
  intros H.
  destruct (H Demo.people "df_people"
              [mkRule "age" ">=" (PScalar (SInt 18)) (Some "and")]
              (mkRule "age" "~" (PScalar (SInt 65)) None) [] eq_refl) as [_ Ht].
  vm_compute in Ht. discriminate.
Qed.

(** C10, as the source has it.  A rule whose operator is present and is
    neither 'and' nor 'or' is still checked and its condition still
    evaluated; when it passes the checks and its condition evaluates, the
    condition does not enter the predicate and [apply_filters] ends as it
    does on the list without the rule. *)
Theorem apply_filters_other_operator
  (df : Polars.DataFrame) (df_name : string) (pre : list filter_rule)
  (r : filter_rule) (post : list filter_rule) (s : string) (c : Polars.bools) :
  operator r = Some s -> s <> "and" -> s <> "or" ->
  accepted r = true ->
  outcome (build df r) = Ok c ->
  outcome (apply_filters df (pre ++ r :: post) df_name)
  = outcome (apply_filters df (pre ++ post) df_name).
Proof.
  intros Hop Hand Hor Hacc Hb.
  rewrite !apply_filters_outcome, !apply_filters_loop_app, !outcome_bind.
  destruct (outcome (apply_filters_loop df df_name pre (Polars.lit true)))
    as [q|e]; [|done].
  cbn [rbind]. rewrite apply_filters_loop_cons.
  unfold accepted in Hacc. apply andb_prop in Hacc as [Hk Hl].
  rewrite Hk. apply negb_true_iff in Hl. rewrite Hl. cbn [negb].
  rewrite outcome_bind, Hb. cbn [rbind].
  unfold extend. rewrite Hop. simpl.
  apply String.eqb_neq in Hand, Hor. by rewrite Hand, Hor.
Qed.

Lemma apply_filters_other_operator_witness :
  let r := mkRule "age" "==" (PScalar (SInt 18)) (Some "xor") in
  operator r = Some "xor" /\ "xor" <> "and" /\ "xor" <> "or"
  /\ accepted r = true
  /\ outcome (build Demo.people r)
     = Ok [Some false; Some true; Some false; Some false; Some false]
  /\ outcome (apply_filters Demo.people ([] ++ r :: []) "df_people")
     = outcome (apply_filters Demo.people ([] ++ []) "df_people").
Proof.
  split_and!; [reflexivity|discriminate|discriminate|reflexivity|reflexivity|].
  apply (apply_filters_other_operator Demo.people "df_people" []
           (mkRule "age" "==" (PScalar (SInt 18)) (Some "xor")) [] "xor"
           [Some false; Some true; Some false; Some false; Some false]);
    [reflexivity|discriminate|discriminate|reflexivity|reflexivity].
Defined.

(** C10, as stated, fails: the rule is not simply dropped.  Its condition is
    still built, so a rule on a column the table does not have raises
    although the list without it returns the table. *)
Lemma other_operator_rule_still_raises :
  ~ (forall (df : Polars.DataFrame) (df_name : string)
       (pre : list filter_rule) (r : filter_rule) (post : list filter_rule)
       (s : string) (out : Polars.DataFrame),
       operator r = Some s -> s <> "and" -> s <> "or" ->
       outcome (apply_filters df (pre ++ post) df_name) = Ok out ->
       outcome (apply_filters df (pre ++ r :: post) df_name) = Ok out).
Proof.
  intros H.
  specialize (H Demo.people "df_people" []
                (mkRule "height" "==" (PScalar (SInt 18)) (Some "xor")) []
                "xor" Demo.people eq_refl).
  discriminate H; [discriminate|discriminate|reflexivity].
Qed.

(* ===================================================================== *)
(** ** Theorems: sources, formats and loading *)
(* ===================================================================== *)

Lemma data_formats_lookup (w : world) (ext : string) :
  data_formats w !! ext = registered_decoder w ext.
Proof.
  unfold data_formats, registered_decoder.
  destruct (String.eqb_spec ext ".csv") as [->|?]; [by rewrite lookup_insert_eq|].
  rewrite lookup_insert_ne by done.
  destruct (String.eqb_spec ext ".json") as [->|?]; [by rewrite lookup_insert_eq|].
  rewrite lookup_insert_ne by done.
  destruct (String.eqb_spec ext ".parquet") as [->|?]; [by rewrite lookup_insert_eq|].
  rewrite lookup_insert_ne by done.
  destruct (String.eqb_spec ext ".xlsx") as [->|?]; [by rewrite lookup_insert_eq|].
  rewrite lookup_insert_ne by done. apply lookup_empty.
Qed.

(** C9. The extension of a file name, with its dot and as it is spelt, is
    looked up in [data_formats]: '.csv', '.json', '.parquet' and '.xlsx'
    give their reader, which [_read_file] then calls on the file; any other
    extension makes [_read_file] raise [UnsupportedFormatError] with the
    extension in its message, and nothing is decoded. *)
Theorem read_file_resolves_extension
  (w : world) (f : file) (join_similar : bool) (kwargs : gmap string pyval) :
  let file_name := file_name_of f in
  let ext := snd (OsPath.splitext file_name) in
  data_formats w !! ext = registered_decoder w ext
  /\ _read_file w f join_similar kwargs
     = match registered_decoder w ext with
       | Some read_func =>
           ([EvDecode file_name],
            match read_func f kwargs with
            | Ok df => Ok (file_name, df)
            | Raise e => Raise e
            end)
       | None =>
           ([], Raise (UnsupportedFormatError ("Unsupported file format: " +:+ ext)))
       end.
Proof.
  intros file_name ext. split; [apply data_formats_lookup|].
  unfold _read_file. fold file_name. fold ext. rewrite data_formats_lookup.
  destruct (registered_decoder w ext) as [read_func|]; [|done].
  simpl. by destruct (read_func f kwargs).
Qed.

(** C7. An archive read through its path and the same bytes read from
    memory give the same result: [_read_from_zip] and [read_data] do the
    same work and return the same tables under the same keys, or raise the
    same exception. *)
Theorem read_from_zip_path_or_bytes
  (w : world) (path : string) (content : bytes) (join_similar : bool)
  (duplicated_subset_dict : option (list (string * option (list string))))
  (filter_subset : option (list (string * list filter_rule)))
  (kwargs : gmap string pyval) :
  fs w !! path = Some (File content) ->
  _read_from_zip w (SrcStr path) join_similar kwargs
  = _read_from_zip w (SrcBytes content) join_similar kwargs
  /\ read_data w (SrcStr path) join_similar duplicated_subset_dict filter_subset kwargs
     = read_data w (SrcBytes content) join_similar duplicated_subset_dict
         filter_subset kwargs.
Proof.
  intros Hp.
  assert (_read_from_zip w (SrcStr path) join_similar kwargs
          = _read_from_zip w (SrcBytes content) join_similar kwargs) as Hz.
  { unfold _read_from_zip, ZipFile_path, ZipFile_bytes. by rewrite Hp. }
  split; [done|].
  unfold read_data, load, is_directory_source, is_zip_source, isdir, isfile.
  by rewrite Hp, orb_true_r, Hz.
Qed.

Lemma read_from_zip_path_or_bytes_witness :
  fs Demo.world !! "/a.zip" = Some (File (Demo.b "zip:a"))
  /\ _read_from_zip Demo.world (SrcStr "/a.zip") true ∅
     = _read_from_zip Demo.world (SrcBytes (Demo.b "zip:a")) true ∅
  /\ read_data Demo.world (SrcStr "/a.zip") true None None ∅
     = read_data Demo.world (SrcBytes (Demo.b "zip:a")) true None None ∅.
Proof.
  split; [reflexivity|].
  apply (read_from_zip_path_or_bytes Demo.world "/a.zip" (Demo.b "zip:a")
           true None None ∅).
  reflexivity.
Defined.

(** C3, as the source has it.  A source that is neither the path of an
    existing directory, nor the path of an existing file, nor bytes makes
    [read_data] raise [ValueError] ('Unsupported source type') at once:
    nothing is listed, opened or decoded. *)
Theorem read_data_unsupported_source
  (w : world) (src : source) (join_similar : bool)
  (duplicated_subset_dict : option (list (string * option (list string))))
  (filter_subset : option (list (string * list filter_rule)))
  (kwargs : gmap string pyval) :
  supported_source w src = false ->
  read_data w src join_similar duplicated_subset_dict filter_subset kwargs
  = ([], Raise (ValueError "Unsupported source type")).
Proof.
  intros Hs. unfold read_data, load, is_directory_source, is_zip_source.
  destruct src as [p|b|t]; simpl in Hs; [|done|done].
  apply orb_false_elim in Hs as [-> ->]. done.
Qed.

Lemma read_data_unsupported_source_witness :
  supported_source Demo.world (SrcStr "/nowhere") = false
  /\ read_data Demo.world (SrcStr "/nowhere") false None None ∅
     = ([], Raise (ValueError "Unsupported source type")).
Proof.
  split; [reflexivity|].
  apply (read_data_unsupported_source Demo.world (SrcStr "/nowhere") false None None ∅).
  reflexivity.
Defined.

(** C3, as stated, fails: what is raised is a [ValueError]; the reader has
    no [UnsupportedSourceError]. *)
Lemma unsupported_source_is_value_error :
  ~ (forall (w : world) (src : source) (join_similar : bool)
       (duplicated_subset_dict : option (list (string * option (list string))))
       (filter_subset : option (list (string * list filter_rule)))
       (kwargs : gmap string pyval),
       supported_source w src = false ->
       exists msg,
         read_data w src join_similar duplicated_subset_dict filter_subset kwargs
         = ([], Raise (Exn "UnsupportedSourceError" msg))).
Proof.
  intros H.
  destruct (H Demo.world (SrcOther "int") false None None ∅ eq_refl) as [msg Hm].
  vm_compute in Hm. discriminate.
Qed.

(** C4, as the source has it.  With [join_similar] off, an archive of two
    decodable members gives each member's table under its key, 'df_' and
    the stem of its name, whatever the pool's scheduling: two distinct keys
    when the stems differ, the same collection for either order of the
    members; one key when the stems are the same, as for 'a.csv' and
    'a.json', holding the table of the member listed last. *)
Theorem read_data_two_members
  (w : world) (content content' : bytes) (n1 n2 : string) (c1 c2 : bytes)
  (df1 df2 : Polars.DataFrame) (kwargs : gmap string pyval) :
  zip_members w content = Ok [(n1, c1); (n2, c2)] ->
  zip_members w content' = Ok [(n2, c2); (n1, c1)] ->
  outcome (_read_file w (ZipExtFile n1 c1) false kwargs) = Ok (n1, Some df1) ->
  outcome (_read_file w (ZipExtFile n2 c2) false kwargs) = Ok (n2, Some df2) ->
  let k1 := key_of n1 false in
  let k2 := key_of n2 false in
  let out : gmap string Polars.DataFrame := <[k2 := df2]> (<[k1 := df1]> ∅) in
  let out' : gmap string Polars.DataFrame := <[k1 := df1]> (<[k2 := df2]> ∅) in
  outcome (read_data w (SrcBytes content) false None None kwargs) = Ok out
  /\ outcome (read_data w (SrcBytes content') false None None kwargs) = Ok out'
  /\ (if bool_decide (k1 = k2)
      then out = {[k1 := df2]} /\ out' = {[k1 := df1]}
      else out = out' /\ dom out = {[k1; k2]} /\ size out = 2%nat).
Proof.
  intros Hz Hz' H1 H2 k1 k2 out out'. split_and!.
  - rewrite read_data_plain, (load_bytes _ _ _ _ _ Hz), read_files_parallel_outcome.
    cbn [map fst snd]. rewrite H1, H2. apply collect_two_no_join.
  - rewrite read_data_plain, (load_bytes _ _ _ _ _ Hz'), read_files_parallel_outcome.
    cbn [map fst snd]. rewrite H1, H2. apply collect_two_no_join.
  - unfold out, out'. case_bool_decide as Hk.
    + rewrite <- Hk, !insert_insert_eq. by rewrite !insert_empty.
    + split_and!.
      * by apply insert_insert_ne.
      * rewrite !dom_insert_L, dom_empty_L, union_empty_r_L. apply (comm_L (∪)).
      * rewrite map_size_insert_None by (by rewrite lookup_insert_ne, lookup_empty).
        by rewrite map_size_insert_None, map_size_empty by apply lookup_empty.
Qed.

Lemma read_data_two_members_witness :
  zip_members Demo.world (Demo.b "zip:b") = Ok [("a.csv", Demo.b "jan"); ("b.json", Demo.b "feb")]
  /\ zip_members Demo.world (Demo.b "zip:c") = Ok [("b.json", Demo.b "feb"); ("a.csv", Demo.b "jan")]
  /\ outcome (_read_file Demo.world (ZipExtFile "a.csv" (Demo.b "jan")) false ∅)
     = Ok ("a.csv", Some Demo.jan)
  /\ outcome (_read_file Demo.world (ZipExtFile "b.json" (Demo.b "feb")) false ∅)
     = Ok ("b.json", Some Demo.feb)
  /\ outcome (read_data Demo.world (SrcBytes (Demo.b "zip:b")) false None None ∅)
     = Ok (<["df_b" := Demo.feb]> (<["df_a" := Demo.jan]> ∅))
  /\ outcome (read_data Demo.world (SrcBytes (Demo.b "zip:c")) false None None ∅)
     = Ok (<["df_a" := Demo.jan]> (<["df_b" := Demo.feb]> ∅)).
Proof.
  do 4 (split; [reflexivity|]).
  pose proof (read_data_two_members Demo.world (Demo.b "zip:b") (Demo.b "zip:c")
                "a.csv" "b.json" (Demo.b "jan") (Demo.b "feb") Demo.jan Demo.feb ∅
                eq_refl eq_refl eq_refl eq_refl) as (H1 & H2 & _).
  split; [exact H1|exact H2].
Defined.

(** C4, as stated, fails: 'a.csv' and 'a.json' have the same stem, so both
    tables go under 'df_a' and the collection has one key. *)
Lemma same_stem_members_share_a_key :
  ~ (forall (w : world) (content c1 c2 : bytes) (df1 df2 : Polars.DataFrame)
       (kwargs : gmap string pyval),
       zip_members w content = Ok [("a.csv", c1); ("a.json", c2)] ->
       outcome (_read_file w (ZipExtFile "a.csv" c1) false kwargs)
       = Ok ("a.csv", Some df1) ->
       outcome (_read_file w (ZipExtFile "a.json" c2) false kwargs)
       = Ok ("a.json", Some df2) ->
       exists out,
         outcome (read_data w (SrcBytes content) false None None kwargs) = Ok out
         /\ size out = 2%nat).
Proof.
  intros H.
  destruct (H Demo.world (Demo.b "zip:a") (Demo.b "jan") (Demo.b "feb")
              Demo.jan Demo.feb ∅) as (out & Hout & Hsize); [reflexivity..|].
  vm_compute in Hout. injection Hout as <-. vm_compute in Hsize. discriminate.
Qed.

(** Where the first alternative of the pattern does not match, neither do
    the other two: what [re.sub] removes is decided by [_(\d+)] alone. *)
Lemma join_pattern_first_alternative (s : string) :
  Re.match_here join_pattern s
  = Re.match_seq (Re.lit "_" ++ [Re.PPlus Re.CDigit]) s.
Proof.
  unfold join_pattern. cbn [Re.match_here].
  destruct (Re.match_seq (Re.lit "_" ++ [Re.PPlus Re.CDigit]) s) as [n|] eqn:H1;
    [done|].
  destruct s as [|a [|b r]]; [done| |].
  - cbn in *. by destruct (Ascii.eqb a "_").
  - cbn in H1 |- *. destruct (Ascii.eqb a "_"); [|done].
    destruct (Re.is_digit b) eqn:Hb; [|done].
    cbn in H1. by destruct (Re.plus Re.CDigit (fun _ => Some 0%nat) r).
Qed.

Lemma key_of_join (d n : string) (join_similar : bool) :
  plain_name n = true ->
  key_of (OsPath.join d n) join_similar = key_of n join_similar.
Proof.
  intros Hn. unfold key_of.
  by rewrite (basename_join d n Hn), (basename_plain n Hn).
Qed.

(** C1, what the source does.  For a directory whose regular files are
    'sales_2023-01-01 00:00:00.csv' and 'sales_2023-02-01 00:00:00.csv',
    [read_data] with [join_similar] returns two tables, under the keys
    'df_sales-01-01 00:00:00' and 'df_sales-02-01 00:00:00': the first
    alternative of the pattern removes '_2023' and the date alternative
    never applies.  Without [join_similar] it returns them under the two
    keys made of the whole stems. *)
Theorem read_data_dated_files
  (w : world) (d : string) (names : list string)
  (df1 df2 : Polars.DataFrame) (kwargs : gmap string pyval) :
  let p1 := OsPath.join d "sales_2023-01-01 00:00:00.csv" in
  let p2 := OsPath.join d "sales_2023-02-01 00:00:00.csv" in
  fs w !! d = Some (Dir names) ->
  (List.filter (isfile w) (map (OsPath.join d) names) = [p1; p2]
   \/ List.filter (isfile w) (map (OsPath.join d) names) = [p2; p1]) ->
  outcome (_read_file w (Path p1) true kwargs) = Ok (p1, Some df1) ->
  outcome (_read_file w (Path p2) true kwargs) = Ok (p2, Some df2) ->
  outcome (read_data w (SrcStr d) true None None kwargs)
  = Ok (<["df_sales-01-01 00:00:00" := df1]>
          (<["df_sales-02-01 00:00:00" := df2]> ∅))
  /\ outcome (read_data w (SrcStr d) false None None kwargs)
     = Ok (<["df_sales_2023-01-01 00:00:00" := df1]>
             (<["df_sales_2023-02-01 00:00:00" := df2]> ∅)).
Proof.
  intros p1 p2 Hd Hfiles H1 H2.
  assert (forall js, key_of p1 js
            = if js then "df_sales-01-01 00:00:00" else "df_sales_2023-01-01 00:00:00")
    as Hk1 by (intros []; unfold p1; by rewrite key_of_join).
  assert (forall js, key_of p2 js
            = if js then "df_sales-02-01 00:00:00" else "df_sales_2023-02-01 00:00:00")
    as Hk2 by (intros []; unfold p2; by rewrite key_of_join).
  assert (forall js, outcome (read_data w (SrcStr d) js None None kwargs)
            = Ok (<[key_of p1 js := df1]> (<[key_of p2 js := df2]> ∅))) as Hjs.
  { intros js.
    rewrite read_data_plain, (load_directory _ _ _ _ _ Hd), read_files_parallel_outcome.
    assert (key_of p1 js <> key_of p2 js) as Hne
      by (rewrite Hk1, Hk2; by destruct js).
    destruct Hfiles as [-> | ->]; cbn [map]; change (_read_file w ?f js kwargs)
      with (_read_file w f true kwargs); rewrite H1, H2.
    - rewrite (collect_two_distinct _ _ _ _ _ Hne). f_equal.
      by apply insert_insert_ne.
    - by rewrite collect_two_distinct. }
  split; [rewrite (Hjs true)|rewrite (Hjs false)]; by rewrite Hk1, Hk2.
Qed.

Lemma read_data_dated_files_witness :
  fs Demo.world !! "/data"
  = Some (Dir ["sales_2023-01-01 00:00:00.csv"; "sales_2023-02-01 00:00:00.csv"; "sub"])
  /\ outcome (_read_file Demo.world (Path "/data/sales_2023-01-01 00:00:00.csv") true ∅)
     = Ok ("/data/sales_2023-01-01 00:00:00.csv", Some Demo.jan)
  /\ outcome (_read_file Demo.world (Path "/data/sales_2023-02-01 00:00:00.csv") true ∅)
     = Ok ("/data/sales_2023-02-01 00:00:00.csv", Some Demo.feb)
  /\ outcome (read_data Demo.world (SrcStr "/data") true None None ∅)
     = Ok (<["df_sales-01-01 00:00:00" := Demo.jan]>
             (<["df_sales-02-01 00:00:00" := Demo.feb]> ∅))
  /\ outcome (read_data Demo.world (SrcStr "/data") false None None ∅)
     = Ok (<["df_sales_2023-01-01 00:00:00" := Demo.jan]>
             (<["df_sales_2023-02-01 00:00:00" := Demo.feb]> ∅)).
Proof.
  do 3 (split; [reflexivity|]).
  apply (read_data_dated_files Demo.world "/data"
           ["sales_2023-01-01 00:00:00.csv"; "sales_2023-02-01 00:00:00.csv"; "sub"]
           Demo.jan Demo.feb ∅);
    [reflexivity | left; reflexivity | reflexivity | reflexivity].
Defined.

(** With [join_similar], files that differ in a trailing number are put
    together: the pattern removes the number, the keys coincide and the
    tables are concatenated, the rows of the first followed by those of the
    second. *)
Lemma read_data_numbered_files
  (w : world) (d : string) (names : list string)
  (df1 df2 : Polars.DataFrame) (kwargs : gmap string pyval) :
  let p1 := OsPath.join d "sales_1.csv" in
  let p2 := OsPath.join d "sales_2.csv" in
  fs w !! d = Some (Dir names) ->
  List.filter (isfile w) (map (OsPath.join d) names) = [p1; p2] ->
  outcome (_read_file w (Path p1) true kwargs) = Ok (p1, Some df1) ->
  outcome (_read_file w (Path p2) true kwargs) = Ok (p2, Some df2) ->
  Polars.schema df1 = Polars.schema df2 ->
  exists joined,
    outcome (read_data w (SrcStr d) true None None kwargs) = Ok {["df_sales" := joined]}
    /\ Polars.height joined = (Polars.height df1 + Polars.height df2)%nat.
Proof.
  intros p1 p2 Hd Hfiles H1 H2 Hs.
  assert (key_of p1 true = "df_sales") as Hk1 by (unfold p1; by rewrite key_of_join).
  assert (key_of p2 true = "df_sales") as Hk2 by (unfold p2; by rewrite key_of_join).
  rewrite read_data_plain, (load_directory _ _ _ _ _ Hd), read_files_parallel_outcome.
  rewrite Hfiles. cbn [map]. rewrite H1, H2.
  rewrite collect_two_joined by (by rewrite Hk1, Hk2). rewrite Hk1.
  destruct (Polars.concat df1 df2) as [joined|e] eqn:Hc.
  - exists joined. split; [done|]. by apply height_concat.
  - unfold Polars.concat in Hc. by rewrite bool_decide_eq_true_2 in Hc.
Qed.

(** C2, what the source does.  Each pass of [read_data] builds the
    collection anew from the entries of its dict: after a deduplication
    pass, or after a filtering pass, a call that returns returns exactly
    the tables the dict names, every other loaded table being left out, and
    it returns only if every table the dict names was loaded (for an entry
    without a table the lookup raises [KeyError]). *)
Theorem read_data_passes_keep_named_only
  (w : world) (src : source) (join_similar : bool) (kwargs : gmap string pyval)
  (data : gmap string Polars.DataFrame) :
  outcome (load w src join_similar kwargs) = Ok data ->
  (forall ditems out, ditems <> [] ->
     outcome (read_data w src join_similar (Some ditems) None kwargs) = Ok out ->
     dom out = named_keys ditems /\ named_keys ditems ⊆ dom data)
  /\ (forall fitems out, fitems <> [] ->
     outcome (read_data w src join_similar None (Some fitems) kwargs) = Ok out ->
     dom out = named_keys fitems /\ named_keys fitems ⊆ dom data).
Proof.
  intros Hload. split.
  - intros ditems out Hne. rewrite read_data_outcome, Hload. cbn [rbind].
    destruct ditems as [|item ditems]; [done|].
    unfold dedup_step. cbn [nonempty default]. rewrite try_except_reraise.
    cbn [outcome lift snd]. unfold id.
    destruct (dedup_items data (item :: ditems) ∅) as [data'|e] eqn:Hdd; [|done].
    cbn [rbind filter_step nonempty]. intros [= <-].
    apply dedup_items_dom in Hdd. by rewrite dom_empty_L, union_empty_l_L in Hdd.
  - intros fitems out Hne. rewrite read_data_outcome, Hload. cbn [rbind].
    cbn [dedup_step nonempty outcome ret snd rbind].
    destruct fitems as [|item fitems]; [done|].
    unfold filter_step. cbn [nonempty default]. rewrite try_except_reraise.
    unfold id. intros Hff. apply filter_items_dom in Hff.
    by rewrite dom_empty_L, union_empty_l_L in Hff.
Qed.

Lemma read_data_passes_keep_named_only_witness :
  let loaded : gmap string Polars.DataFrame :=
    <["df_dup" := Demo.dup]> (<["df_people" := Demo.people]> ∅) in
  let kept : gmap string Polars.DataFrame :=
    {["df_dup" := [("id", Demo.ints [1; 2]%Z); ("v", Demo.ints [7; 9]%Z)]]} in
  outcome (load Demo.world (SrcStr "/flat") false ∅) = Ok loaded
  /\ outcome (read_data Demo.world (SrcStr "/flat") false
                (Some [("dup", Some ["id"])]) None ∅) = Ok kept
  /\ dom kept = named_keys [("dup", Some ["id"])]
  /\ named_keys [("dup", Some ["id"])] ⊆ dom loaded.
Proof.
  intros loaded kept.
  assert (outcome (load Demo.world (SrcStr "/flat") false ∅) = Ok loaded) as Hl
    by (vm_compute; reflexivity).
  assert (outcome (read_data Demo.world (SrcStr "/flat") false
                     (Some [("dup", Some ["id"])]) None ∅) = Ok kept) as Hk
    by (vm_compute; reflexivity).
  split; [exact Hl|]. split; [exact Hk|].
  apply (proj1 (read_data_passes_keep_named_only Demo.world (SrcStr "/flat")
                  false ∅ loaded Hl) [("dup", Some ["id"])] kept);
    [discriminate|exact Hk].
Defined.

(** *** The reader on the small world *)

Example people_of_working_age :
  outcome (apply_filters Demo.people
             [mkRule "age" ">=" (PScalar (SInt 18)) (Some "and");
              mkRule "age" "<" (PScalar (SInt 65)) (Some "and")] "df_people")
  = Ok [("age", Demo.ints [18; 64]%Z)].
Proof. reflexivity. Qed.

Example unique_keeps_first :
  Polars.unique Demo.dup (Some ["id"])
  = Ok [("id", Demo.ints [1; 2]%Z); ("v", Demo.ints [7; 9]%Z)].
Proof. reflexivity. Qed.

Example upper_case_extension :
  _read_file Demo.world (Path "/flat/PEOPLE.CSV") false ∅
  = ([], Raise (UnsupportedFormatError "Unsupported file format: .CSV")).
Proof. reflexivity. Qed.

Example dedup_of_a_missing_table :
  outcome (read_data Demo.world (SrcStr "/flat") false
             (Some [("sales", Some ["id"])]) None ∅)
  = Raise (KeyError "df_sales").
Proof. vm_compute. reflexivity. Qed.

Example filter_drops_the_other_tables :
  outcome (read_data Demo.world (SrcStr "/flat") false None
             (Some [("people", [mkRule "age" ">" (PScalar (SInt 64)) None])]) ∅)
  = Ok {["df_people" := [("age", Demo.ints [65; 70]%Z)]]}.
Proof. vm_compute. reflexivity. Qed.

Example numbered_files_are_joined :
  outcome (read_data Demo.world (SrcStr "/parts") true None None ∅)
  = Ok {["df_sales" := [("id", Demo.ints [1; 2; 3]%Z);
                        ("amount", Demo.ints [10; 20; 30]%Z)]]}.
Proof. vm_compute. reflexivity. Qed.

(* ===================================================================== *)
(** ** More on the normalisation of stems *)
(* ===================================================================== *)

Section Normalisation.
Import Re.

Lemma append_cons (a : ascii) (r t : string) :
  String a r +:+ t = String a (r +:+ t).
Proof. reflexivity. Qed.

Lemma append_nil_r (s : string) : s +:+ "" = s.
Proof. induction s as [|a s IH]; [done|]. by rewrite append_cons, IH. Qed.

(** [\d+] at the end of an alternative takes the whole run of digits. *)
Lemma plus_digits r :
  match plus CDigit (fun _ => Some 0%nat) r with
  | Some n => exists m, n = S m /\ digit_run n r = true
  | None => starts_with_digit r = false
  end.
Proof.
  induction r as [|a r IH]; [done|].
  cbn [plus cls_ok starts_with_digit].
  destruct (is_digit a) eqn:Ha; [|done].
  destruct (plus CDigit (fun _ => Some 0%nat) r) as [n|].
  - destruct IH as (m & -> & Hrun). exists (S m). split; [done|].
    change (is_digit a && digit_run (S m) r = true). by rewrite Ha, Hrun.
  - exists 0%nat. split; [done|].
    change (is_digit a && negb (starts_with_digit r) = true). by rewrite Ha, IH.
Qed.

(** What the pattern matches at the head of a string. *)
Lemma match_here_cons a r :
  match_here join_pattern (String a r)
  = if Ascii.eqb a "_" then S <$> plus CDigit (fun _ => Some 0%nat) r else None.
Proof.
  rewrite join_pattern_first_alternative. cbn.
  by destruct (Ascii.eqb a "_").
Qed.

Lemma match_here_group a r n :
  match_here join_pattern (String a r) = Some n ->
  Ascii.eqb a "_" = true /\ exists m, n = S (S m) /\ digit_run (S m) r = true.
Proof.
  rewrite match_here_cons. destruct (Ascii.eqb a "_"); [|done].
  pose proof (plus_digits r) as Hp.
  destruct (plus CDigit (fun _ => Some 0%nat) r) as [k|]; [|done].
  destruct Hp as (m & -> & Hrun). intros [= <-]. eauto.
Qed.

Lemma match_here_none a r :
  match_here join_pattern (String a r) = None ->
  Ascii.eqb a "_" && starts_with_digit r = false.
Proof.
  rewrite match_here_cons. destruct (Ascii.eqb a "_"); [|done].
  pose proof (plus_digits r) as Hp.
  by destruct (plus CDigit (fun _ => Some 0%nat) r).
Qed.

Lemma digit_run_starts k r :
  digit_run (S k) r = true -> starts_with_digit r = true.
Proof. destruct r as [|a r]; [done|]. cbn. by intros [? _]%andb_prop. Qed.

(** The scan of [re.sub], from any state it can be in: nothing it lets
    through is an underscore followed by a digit, and what it lets through
    starts with a digit only if it is at a digit outside a match. *)
Lemma sub_skip_no_group r :
  forall k, k = 0%nat \/ digit_run k r = true ->
  no_group (sub_skip join_pattern k r) = true
  /\ (starts_with_digit (sub_skip join_pattern k r) = true ->
      k = 0%nat /\ starts_with_digit r = true).
Proof.
  induction r as [|a r IH]; intros k Hk; [by destruct k|].
  destruct k as [|k].
  - cbn [sub_skip].
    destruct (match_here join_pattern (String a r)) as [[|n]|] eqn:Hm.
    + by apply match_here_group in Hm as (_ & m & ? & _).
    + apply match_here_group in Hm as (_ & m & [= ->] & Hrun).
      destruct (IH (S m) (or_intror Hrun)) as [Hg Hd]. split; [done|].
      by intros [? _]%Hd.
    + apply match_here_none in Hm.
      destruct (IH 0%nat (or_introl eq_refl)) as [Hg Hd].
      cbn [no_group starts_with_digit]. split; [|done].
      rewrite Hg, andb_true_r. apply negb_true_iff.
      destruct (Ascii.eqb a "_"); [|done]. cbn in Hm |- *.
      destruct (starts_with_digit (sub_skip join_pattern 0 r)) eqn:Hs; [|done].
      destruct (Hd eq_refl) as [_ Hr]. congruence.
  - destruct Hk as [|Hk]; [done|]. cbn [sub_skip].
    cbn [digit_run] in Hk. apply andb_prop in Hk as [_ Hk].
    destruct (IH k (or_intror Hk)) as [Hg Hd]. split; [done|].
    intros [-> Hr]%Hd. cbn in Hk. by rewrite Hr in Hk.
Qed.

(** X1. In merge mode the stem that makes the key has no underscore
    followed by a digit left in it: every such group is removed, wherever it
    stands in the stem. *)
Theorem normalize_leaves_no_group (s : string) :
  no_group (normalize s) = true.
Proof. apply (sub_skip_no_group s 0). by left. Qed.

Lemma normalize_without_group (s : string) :
  no_group s = true -> normalize s = s.
Proof.
  unfold normalize, sub_empty.
  induction s as [|a s IH]; [done|].
  cbn [no_group sub_skip]. intros [Ha Hs]%andb_prop.
  apply negb_true_iff in Ha.
  destruct (match_here join_pattern (String a s)) as [[|n]|] eqn:Hm.
  - by rewrite IH.
  - apply match_here_group in Hm as (Hu & m & _ & Hrun).
    apply digit_run_starts in Hrun. by rewrite Hu, Hrun in Ha.
  - by rewrite IH.
Qed.



(** X3. Normalising a stem twice gives what normalising it once gives:
    removing the groups never brings an underscore and a digit together. *)
Theorem normalize_idempotent (s : string) :
  normalize (normalize s) = normalize s.
Proof. apply normalize_without_group, (sub_skip_no_group s 0). by left. Qed.

Lemma plus_app r t :
  starts_with_digit t = false ->
  plus CDigit (fun _ => Some 0%nat) (r +:+ t)
  = plus CDigit (fun _ => Some 0%nat) r.
Proof.
  intros Ht. induction r as [|a r IH].
  - change ("" +:+ t) with t. destruct t as [|b t]; [done|].
    cbn in Ht |- *. by rewrite Ht.
  - rewrite append_cons. cbn [plus]. by rewrite IH.
Qed.

(** The scan of a string does not depend on what follows it, as long as
    that does not start with a digit. *)
Lemma sub_skip_app s t :
  starts_with_digit t = false ->
  forall k, k = 0%nat \/ digit_run k s = true ->
  sub_skip join_pattern k (s +:+ t)
  = sub_skip join_pattern k s +:+ sub_skip join_pattern 0 t.
Proof.
  intros Ht. induction s as [|a s IH]; intros k Hk.
  - destruct k; [done|]. by destruct Hk.
  - rewrite append_cons. destruct k as [|k].
    + cbn [sub_skip]. rewrite !match_here_cons, (plus_app s t Ht).
      pose proof (match_here_group a s) as Hg. rewrite match_here_cons in Hg.
      destruct (if Ascii.eqb a "_"
                then S <$> plus CDigit (fun _ => Some 0%nat) s
                else None) as [[|n]|].
      * rewrite append_cons. f_equal. apply IH. by left.
      * destruct (Hg _ eq_refl) as (_ & m & [= ->] & Hrun). apply IH. by right.
      * rewrite append_cons. f_equal. apply IH. by left.
    + destruct Hk as [|Hk]; [done|]. cbn [sub_skip].
      cbn [digit_run] in Hk. apply andb_prop in Hk as [_ Hk].
      apply IH. by right.
Qed.

Lemma plus_all_digits a ds :
  PyStr.all_chars is_digit (String a ds) = true ->
  plus CDigit (fun _ => Some 0%nat) (String a ds)
  = Some (String.length (String a ds)).
Proof.
  revert a. induction ds as [|b ds IH]; intros a.
  - cbn. intros Ha. rewrite andb_true_r in Ha. by rewrite Ha.
  - intros [Ha Hds]%andb_prop.
    change (plus CDigit (fun _ => Some 0%nat) (String a (String b ds)))
      with (if is_digit a
            then match plus CDigit (fun _ => Some 0%nat) (String b ds) with
                 | Some n => Some (S n)
                 | None => S <$> Some 0%nat
                 end
            else None).
    by rewrite Ha, (IH b Hds).
Qed.

Lemma sub_skip_all p s : sub_skip p (String.length s) s = "".
Proof. induction s as [|a s IH]; [done|]. apply IH. Qed.

Lemma sub_skip_group a ds :
  PyStr.all_chars is_digit (String a ds) = true ->
  sub_skip join_pattern 0 (String "_" (String a ds)) = "".
Proof.
  intros Hds.
  change (sub_skip join_pattern 0 (String "_" (String a ds)))
    with (match match_here join_pattern (String "_" (String a ds)) with
          | Some (S n) => sub_skip join_pattern n (String a ds)
          | _ => String "_" (sub_skip join_pattern 0 (String a ds))
          end).
  rewrite match_here_cons, (plus_all_digits a ds Hds).
  change (Ascii.eqb "_" "_") with true. cbv beta iota.
  change (S <$> Some (String.length (String a ds)))
    with (Some (S (String.length (String a ds)))).
  cbv beta iota. apply sub_skip_all.
Qed.

(** X4. A last group of an underscore and digits does not count: in merge
    mode 'x_<digits>' is normalised to what 'x' is normalised to, so files
    that differ in such a trailing number get one key. *)
Theorem normalize_trailing_number (s ds : string) :
  ds <> "" -> PyStr.all_chars is_digit ds = true ->
  normalize (s +:+ "_" +:+ ds) = normalize s.
Proof.
  intros Hne Hds. unfold normalize, sub_empty.
  rewrite sub_skip_app by (done || by left).
  destruct ds as [|a ds]; [done|].
  change ("_" +:+ String a ds) with (String "_" (String a ds)).
  by rewrite (sub_skip_group a ds Hds), append_nil_r.
Qed.

Lemma normalize_trailing_number_witness :
  "20230101" <> "" /\ PyStr.all_chars is_digit "20230101" = true
  /\ normalize ("sales_part" +:+ "_" +:+ "20230101") = normalize "sales_part".
Proof.
  split; [discriminate|]. split; [reflexivity|].
  apply (normalize_trailing_number "sales_part" "20230101");
    [discriminate|reflexivity].
Defined.

End Normalisation.

(* ===================================================================== *)
(** ** More on the filter engine *)
(* ===================================================================== *)

Section MoreFilters.
Import Polars.

Variable df : DataFrame.
Variable df_name : string.

(** Two rule lists that go through the loop alike give [apply_filters]
    the same end. *)
Lemma apply_filters_outcome_ext filters filters' :
  outcome (apply_filters_loop df df_name filters (lit true))
  = outcome (apply_filters_loop df df_name filters' (lit true)) ->
  outcome (apply_filters df filters df_name)
  = outcome (apply_filters df filters' df_name).
Proof. intros H. by rewrite !apply_filters_outcome, H. Qed.

Lemma loop_outcome_middle pre r r' post query :
  (forall q, outcome (apply_filters_loop df df_name (r :: post) q)
             = outcome (apply_filters_loop df df_name (r' :: post) q)) ->
  outcome (apply_filters_loop df df_name (pre ++ r :: post) query)
  = outcome (apply_filters_loop df df_name (pre ++ r' :: post) query).
Proof.
  intros H. rewrite !apply_filters_loop_app, !outcome_bind.
  destruct (outcome (apply_filters_loop df df_name pre query)); [apply H|done].
Qed.

Lemma apply_filters_raises_wrapped filters e :
  outcome (apply_filters df filters df_name) = Raise e ->
  exists msg, e = FilterConfigurationError (wrapped df_name msg).
Proof.
  rewrite apply_filters_outcome.
  destruct (outcome (apply_filters_loop df df_name filters (lit true)))
    as [q|e'].
  - destruct (filter df q) as [out|e']; [done|]. intros [= <-]. eauto.
  - intros [= <-]. eauto.
Qed.

End MoreFilters.



(** X6. The conditions are evaluated in the order of the rules, one per
    rule, up to the first rule that fails: the evaluations made are those
    of the first [n] rules for some [n], and of all rules when
    [apply_filters] returns. *)
Theorem apply_filters_evaluates_in_order
  (df : Polars.DataFrame) (filters : list filter_rule) (df_name : string) :
  (exists n, trace (apply_filters df filters df_name)
             = map condition_event (take n filters))
  /\ match outcome (apply_filters df filters df_name) with
     | Ok _ => trace (apply_filters df filters df_name)
               = map condition_event filters
     | Raise _ => True
     end.
Proof.
  rewrite apply_filters_trace, apply_filters_outcome. split.
  - generalize (Polars.lit true). induction filters as [|h filters IH]; intros q.
    + by exists 0%nat.
    + rewrite apply_filters_loop_cons.
      destruct (negb (known_operation h)); [by exists 0%nat|].
      destruct (list_for_scalar_operation h); [by exists 0%nat|].
      destruct (outcome (build df h)) as [c|e] eqn:Hb.
      * rewrite (trace_bind_ok _ _ c Hb), (build_ok_trace df h c Hb).
        destruct (IH (extend h q c)) as [n ->]. by exists (S n).
      * rewrite (trace_bind_raise _ _ e Hb).
        destruct (build_trace df h) as [-> | ->]; [by exists 0%nat|by exists 1%nat].
  - destruct (outcome (apply_filters_loop df df_name filters (Polars.lit true)))
      as [q|e] eqn:Hq; [|done].
    destruct (Polars.filter df q); [|done].
    by apply (loop_ok_trace df df_name filters _ q).
Qed.

(** X7. A rule without an 'operator' is treated as one with 'and'. *)
Theorem apply_filters_default_operator
  (df : Polars.DataFrame) (df_name : string)
  (pre : list filter_rule) (r : filter_rule) (post : list filter_rule) :
  operator r = None ->
  apply_filters df (pre ++ r :: post) df_name
  = apply_filters df (pre ++ with_operator r "and" :: post) df_name.
Proof.
  intros Hop. unfold apply_filters. do 2 f_equal.
  rewrite !apply_filters_loop_app. apply bind_ext. intros q.
  rewrite !apply_filters_loop_cons.
  unfold known_operation, list_for_scalar_operation, build, extend, with_operator.
  cbn [column operation values operator]. by rewrite Hop.
Qed.

Lemma apply_filters_default_operator_witness :
  let r := mkRule "age" ">=" (PScalar (SInt 18)) None in
  operator r = None
  /\ apply_filters Demo.people ([] ++ r :: []) "df_people"
     = apply_filters Demo.people ([] ++ with_operator r "and" :: []) "df_people".
Proof.
  split; [reflexivity|].
  apply (apply_filters_default_operator Demo.people "df_people" []
           (mkRule "age" ">=" (PScalar (SInt 18)) None) []).
  reflexivity.
Defined.

(** X8. For 'in' and 'notin' a single value stands for the list that holds
    just that value: [apply_filters] ends the same with either. *)
Theorem apply_filters_membership_scalar
  (df : Polars.DataFrame) (df_name : string)
  (pre : list filter_rule) (r : filter_rule) (post : list filter_rule)
  (v : scalar) :
  in_tuple (operation r) ["notin"; "in"] = true ->
  values r = PScalar v ->
  outcome (apply_filters df (pre ++ r :: post) df_name)
  = outcome (apply_filters df (pre ++ with_values r (PList [v]) :: post) df_name).
Proof.
  intros Hop Hv. apply apply_filters_outcome_ext, loop_outcome_middle. intros q.
  rewrite !apply_filters_loop_cons.
  unfold known_operation, list_for_scalar_operation, with_values.
  cbn [column operation values operator]. rewrite Hop. cbn [negb andb].
  destruct (negb (in_tuple (operation r) __available_operations)); [done|].
  rewrite !outcome_bind.
  assert (outcome (build df r)
          = outcome (build df (mkRule (column r) (operation r) (PList [v]) (operator r))))
    as Hb.
  { unfold build, _build_filter_condition. cbn [column operation values]. rewrite Hv.
    cbn in Hop.
    destruct (String.eqb_spec (operation r) "notin") as [->|?];
      [|destruct (String.eqb_spec (operation r) "in") as [->|?]; [|done]];
      cbn; destruct (Polars.get_column df (column r)) as [s|e]; cbn; try done;
      by destruct (Polars.is_in s [v]). }
  rewrite <- Hb. by destruct (outcome (build df r)).
Qed.

Lemma apply_filters_membership_scalar_witness :
  let r := mkRule "age" "in" (PScalar (SInt 18)) None in
  in_tuple (operation r) ["notin"; "in"] = true
  /\ values r = PScalar (SInt 18)
  /\ outcome (apply_filters Demo.people ([] ++ r :: []) "df_people")
     = outcome (apply_filters Demo.people
                  ([] ++ with_values r (PList [SInt 18]) :: []) "df_people").
Proof.
  split; [reflexivity|]. split; [reflexivity|].
  apply (apply_filters_membership_scalar Demo.people "df_people" []
           (mkRule "age" "in" (PScalar (SInt 18)) None) [] (SInt 18));
    reflexivity.
Defined.

(** X9. The operations [apply_filters] lets through are the ones
    [_build_filter_condition] knows: for one of them it never raises a
    [FilterConfigurationError] of its own (what can fail is the column or
    the comparison), and for any other it raises 'Unsupported operation'
    without touching the table. *)
Theorem build_filter_condition_covers_operations
  (df : Polars.DataFrame) (r : filter_rule) :
  (known_operation r = true ->
   forall msg, outcome (build df r) <> Raise (FilterConfigurationError msg))
  /\ (known_operation r = false ->
      build df r
      = raise (FilterConfigurationError ("Unsupported operation: " +:+ operation r))).
Proof.
  unfold known_operation, in_tuple, __available_operations. cbn [existsb].
  unfold build, _build_filter_condition, Polars.compare_series, Polars.is_in.
  split.
  - intros Hk msg.
    destruct (Polars.get_column df (column r)) as [s|e] eqn:Hc.
    + repeat (case_match; unfold Polars.type_error, Polars.shape_error in *;
              simplify_eq/=); try done.
    + assert (exn_class e = "ColumnNotFoundError") as He.
      { clear Hk. induction df as [|[n s] df' IH]; simpl in Hc; [by simplify_eq|].
        destruct (String.eqb n (column r)); [done|by apply IH]. }
      repeat (case_match; simplify_eq/=); try done;
        intros [= ->]; discriminate He.
  - intros Hk. repeat (apply orb_false_elim in Hk as [? Hk]).
    by repeat match goal with H : String.eqb _ _ = false |- _ => rewrite H; clear H end.
Qed.

Lemma build_filter_condition_covers_operations_witness :
  let known := mkRule "age" ">=" (PScalar (SInt 18)) None in
  let unknown := mkRule "age" "~" (PScalar (SInt 18)) None in
  known_operation known = true
  /\ known_operation unknown = false
  /\ (forall msg, outcome (build Demo.people known)
                  <> Raise (FilterConfigurationError msg))
  /\ build Demo.people unknown
     = raise (FilterConfigurationError "Unsupported operation: ~").
Proof.
  split; [reflexivity|]. split; [reflexivity|]. split.
  - apply (proj1 (build_filter_condition_covers_operations Demo.people
                    (mkRule "age" ">=" (PScalar (SInt 18)) None))).
    reflexivity.
  - apply (proj2 (build_filter_condition_covers_operations Demo.people
                    (mkRule "age" "~" (PScalar (SInt 18)) None))).
    reflexivity.
Defined.

(* ===================================================================== *)
(** ** Rules joined by 'or' *)
(* ===================================================================== *)

Section OrRules.
Import Polars.

Lemma select_all_true {A} (l : list A) :
  select (replicate (length l) true) l = l.
Proof. induction l as [|x l IH]; [done|]. simpl. by rewrite IH. Qed.

Lemma select_all_false {A} n (l : list A) :
  select (replicate n false) l = [].
Proof.
  revert l. induction n as [|n IH]; intros [|x l]; try done. simpl. apply IH.
Qed.

Lemma map_replicate {A B} (f : A -> B) n x :
  map f (replicate n x) = replicate n (f x).
Proof. induction n as [|n IH]; [done|]. simpl. by rewrite IH. Qed.

Lemma zip3_replicate_l f x (l : bools) :
  zip3 f (replicate (length l) x) l = map (f x) l.
Proof. induction l as [|y l IH]; [done|]. simpl. by rewrite IH. Qed.

Lemma zip3_replicate_r f (l : bools) y :
  zip3 f l (replicate (length l) y) = map (fun x => f x y) l.
Proof. induction l as [|x l IH]; [done|]. simpl. by rewrite IH. Qed.

Lemma zip3_replicate f n x y :
  zip3 f (replicate n x) (replicate n y) = replicate n (f x y).
Proof. induction n as [|n IH]; [done|]. simpl. by rewrite IH. Qed.

Lemma zip3_length f (l1 l2 : bools) :
  length l1 = length l2 -> length (zip3 f l1 l2) = length l1.
Proof.
  revert l2. induction l1 as [|x l1 IH]; intros [|y l2]; try done.
  simpl. intros [= H]. by rewrite IH.
Qed.

Lemma compare_cells_length op cs vs :
  length vs = length cs -> length (compare_cells op cs vs) = length cs.
Proof.
  revert vs. induction cs as [|c cs IH]; intros [|v vs]; try done.
  simpl. intros [= H]. by rewrite IH.
Qed.

(** Combining two masks of a height combines their rows. *)
Lemma combine_expand f h a b :
  fits_height h a -> fits_height h b ->
  exists m, combine f a b = Ok m /\ fits_height h m
            /\ expand h m = zip3 f (expand h a) (expand h b).
Proof.
  destruct a as [x|l1], b as [y|l2]; simpl; intros Ha Hb.
  - eexists. split_and!; [done..|]. by rewrite zip3_replicate.
  - eexists. split_and!; [done|simpl; by rewrite length_map|].
    simpl. by rewrite <- Hb, zip3_replicate_l.
  - eexists. split_and!; [done|simpl; by rewrite length_map|].
    simpl. by rewrite <- Ha, zip3_replicate_r.
  - rewrite Ha, Hb, Nat.eqb_refl. eexists. split_and!; [done| |done].
    simpl. rewrite zip3_length; congruence.
Qed.

Variable df : DataFrame.
Variable df_name : string.
Hypothesis Hwf : well_formed df = true.

Lemma column_height column s :
  get_column df column = Ok s -> length (cells s) = height df.
Proof.
  unfold well_formed in Hwf. revert Hwf. generalize (height df) as h. intros h.
  induction df as [|[n s'] df' IH]; simpl; [done|].
  intros [Hs Hr]%andb_prop. destruct (String.eqb n column).
  - intros [= <-]. by apply Nat.eqb_eq.
  - by apply IH.
Qed.

(** A condition has one boolean per row. *)
Lemma build_length r c :
  outcome (build df r) = Ok c -> length c = height df.
Proof.
  unfold build, _build_filter_condition, compare_series, is_in, invert.
  destruct (get_column df (column r)) as [s|e] eqn:Hc.
  - apply column_height in Hc.
    repeat (case_match; unfold type_error, shape_error in *; simplify_eq/=);
      try done; intros [= <-]; rewrite ?length_map; try done.
    all: rewrite compare_cells_length; [done|by apply Nat.eqb_eq].
  - repeat (case_match; simplify_eq/=); done.
Qed.

Lemma same_rows_extend r c q1 q2 :
  length c = height df ->
  same_rows (height df) q1 q2 ->
  same_rows (height df) (extend r q1 c) (extend r q2 c).
Proof.
  intros Hc (m1 & m2 & H1 & H2 & F1 & F2 & He). unfold extend.
  destruct (String.eqb (default "and" (operator r)) "and");
    [|destruct (String.eqb (default "and" (operator r)) "or")].
  - destruct (combine_expand and3 (height df) m1 (PerRow c) F1 Hc) as (n1 & ? & ? & E1).
    destruct (combine_expand and3 (height df) m2 (PerRow c) F2 Hc) as (n2 & ? & ? & E2).
    exists n1, n2. simpl. rewrite H1, H2. simpl. split_and!; try done. congruence.
  - destruct (combine_expand or3 (height df) m1 (PerRow c) F1 Hc) as (n1 & ? & ? & E1).
    destruct (combine_expand or3 (height df) m2 (PerRow c) F2 Hc) as (n2 & ? & ? & E2).
    exists n1, n2. simpl. rewrite H1, H2. simpl. split_and!; try done. congruence.
  - by exists m1, m2.
Qed.

(** The loop takes queries that select the same rows to queries that
    select the same rows, or fails the same way on both. *)
Lemma loop_same_rows filters q1 q2 :
  same_rows (height df) q1 q2 ->
  match outcome (apply_filters_loop df df_name filters q1),
        outcome (apply_filters_loop df df_name filters q2) with
  | Ok a, Ok b => same_rows (height df) a b
  | Raise e1, Raise e2 => e1 = e2
  | _, _ => False
  end.
Proof.
  revert q1 q2. induction filters as [|r filters IH]; intros q1 q2 Hq; [done|].
  rewrite !apply_filters_loop_cons.
  destruct (negb (known_operation r)); [done|].
  destruct (list_for_scalar_operation r); [done|].
  rewrite !outcome_bind.
  destruct (outcome (build df r)) as [c|e] eqn:Hb; [|done]. cbn [rbind].
  apply IH, same_rows_extend; [by apply (build_length r)|done].
Qed.

Lemma select_rows_all :
  select_rows (replicate (height df) true) df = df.
Proof.
  unfold well_formed in Hwf. revert Hwf. generalize (height df) as h. intros h.
  induction df as [|[n [d cs]] df' IH]; simpl; [done|].
  intros [Hs Hr]%andb_prop. apply Nat.eqb_eq in Hs. rewrite <- Hs at 1.
  by rewrite select_all_true, IH.
Qed.

Lemma select_rows_none n : select_rows (replicate n false) df = clear df.
Proof.
  unfold select_rows, clear. clear Hwf.
  induction df as [|c df' IH]; simpl; [done|].
  by rewrite select_all_false, IH.
Qed.

(** What [filter] keeps is decided by the rows a query selects. *)
Lemma filter_same_rows q1 q2 :
  same_rows (height df) q1 q2 -> filter df q1 = filter df q2.
Proof.
  intros (m1 & m2 & H1 & H2 & F1 & F2 & He). unfold filter. rewrite H1, H2.
  assert (forall m, fits_height (height df) m ->
            match m with
            | Broadcast (Some true) => Ok df
            | Broadcast _ => Ok (clear df)
            | PerRow l =>
                if (length l =? height df)%nat
                then Ok (select_rows (map is_true l) df)
                else shape_error
            end = Ok (select_rows (map is_true (expand (height df) m)) df)) as Hm.
  { intros [[[|]|]|l] Hf; cbn [expand]; rewrite ?map_replicate; cbn [is_true].
    - by rewrite select_rows_all.
    - by rewrite select_rows_none.
    - by rewrite select_rows_none.
    - simpl in Hf. by rewrite Hf, Nat.eqb_refl. }
  cbn [rbind]. by rewrite (Hm m1 F1), (Hm m2 F2), He.
Qed.

(** With the query still 'all rows', a rule joined by 'or' changes nothing. *)
Lemma or_absorbed r c :
  operator r = Some "or" -> length c = height df ->
  same_rows (height df) (extend r (lit true) c) (lit true).
Proof.
  intros Hop Hc. unfold extend. rewrite Hop. simpl.
  exists (PerRow (map (or3 (Some true)) c)), (Broadcast (Some true)).
  split_and!; try done.
  - simpl. by rewrite length_map.
  - simpl. rewrite <- Hc. clear. induction c as [|x c IH]; [done|].
    simpl. rewrite IH. by destruct x as [[|]|].
Qed.

Lemma leading_or_rule r post c :
  operator r = Some "or" -> accepted r = true ->
  outcome (build df r) = Ok c ->
  outcome (apply_filters df (r :: post) df_name)
  = outcome (apply_filters df post df_name).
Proof.
  intros Hop Hacc Hb. rewrite !apply_filters_outcome, apply_filters_loop_cons.
  unfold accepted in Hacc. apply andb_prop in Hacc as [Hk Hl].
  apply negb_true_iff in Hl. rewrite Hk, Hl. cbn [negb].
  rewrite outcome_bind, Hb. cbn [rbind].
  pose proof (loop_same_rows post _ _
                (or_absorbed r c Hop (build_length r c Hb))) as Hs.
  destruct (outcome (apply_filters_loop df df_name post (extend r (lit true) c)))
    as [a|e1],
    (outcome (apply_filters_loop df df_name post (lit true))) as [b|e2];
    try done; [|congruence].
  by rewrite (filter_same_rows a b Hs).
Qed.

Lemma apply_filters_ok_head r post out :
  outcome (apply_filters df (r :: post) df_name) = Ok out ->
  accepted r = true /\ exists c, outcome (build df r) = Ok c.
Proof.
  rewrite apply_filters_outcome, apply_filters_loop_cons. unfold accepted.
  destruct (known_operation r); [|done].
  destruct (list_for_scalar_operation r); [done|]. cbn [negb andb].
  rewrite outcome_bind. destruct (outcome (build df r)) as [c|e]; [eauto|done].
Qed.

End OrRules.

(** X10. The query starts as 'all rows', so a first rule joined by 'or'
    selects nothing more and nothing less: when it is accepted and its
    condition evaluates, [apply_filters] ends as it does without it. *)
Theorem apply_filters_leading_or
  (df : Polars.DataFrame) (df_name : string) (r : filter_rule)
  (post : list filter_rule) (c : Polars.bools) :
  well_formed df = true ->
  operator r = Some "or" -> accepted r = true ->
  outcome (build df r) = Ok c ->
  outcome (apply_filters df (r :: post) df_name)
  = outcome (apply_filters df post df_name).
Proof. intros Hwf. by apply leading_or_rule. Qed.

Lemma apply_filters_leading_or_witness :
  let r := mkRule "age" ">" (PScalar (SInt 64)) (Some "or") in
  let post := [mkRule "age" "<" (PScalar (SInt 70)) None] in
  well_formed Demo.people = true
  /\ operator r = Some "or" /\ accepted r = true
  /\ outcome (build Demo.people r)
     = Ok [Some false; Some false; Some false; Some true; Some true]
  /\ outcome (apply_filters Demo.people (r :: post) "df_people")
     = outcome (apply_filters Demo.people post "df_people").
Proof.
  do 4 (split; [reflexivity|]).
  apply (apply_filters_leading_or Demo.people "df_people"
           (mkRule "age" ">" (PScalar (SInt 64)) (Some "or"))
           [mkRule "age" "<" (PScalar (SInt 70)) None]
           [Some false; Some false; Some false; Some true; Some true]);
    reflexivity.
Defined.

(** X11. A rule list in which every rule is joined by 'or' filters nothing:
    when [apply_filters] returns, it returns the table it was given. *)
Theorem apply_filters_all_or
  (df : Polars.DataFrame) (df_name : string) (filters : list filter_rule)
  (out : Polars.DataFrame) :
  well_formed df = true ->
  Forall (fun r => operator r = Some "or") filters ->
  outcome (apply_filters df filters df_name) = Ok out ->
  out = df.
Proof.
  intros Hwf Hor. induction Hor as [|r post Hr Hpost IH].
  - by intros [= <-].
  - intros Hout.
    destruct (apply_filters_ok_head df df_name r post out Hout) as [Hacc [c Hc]].
    apply IH. by rewrite <- (leading_or_rule df df_name Hwf r post c Hr Hacc Hc).
Qed.

Lemma apply_filters_all_or_witness :
  let filters := [mkRule "age" ">" (PScalar (SInt 64)) (Some "or");
                  mkRule "age" "<" (PScalar (SInt 18)) (Some "or")] in
  let out := [("age", Demo.ints [10; 18; 64; 65; 70]%Z)] in
  well_formed Demo.people = true
  /\ Forall (fun r => operator r = Some "or") filters
  /\ outcome (apply_filters Demo.people filters "df_people") = Ok out
  /\ out = Demo.people.
Proof.
  split; [reflexivity|]. split; [by repeat constructor|]. split; [reflexivity|].
  apply (apply_filters_all_or Demo.people "df_people"
           [mkRule "age" ">" (PScalar (SInt 64)) (Some "or");
            mkRule "age" "<" (PScalar (SInt 18)) (Some "or")]
           [("age", Demo.ints [10; 18; 64; 65; 70]%Z)]);
    [reflexivity|by repeat constructor|reflexivity].
Defined.

(* ===================================================================== *)
(** ** More on loading *)
(* ===================================================================== *)

Section MoreLoading.
Import Polars.

Variable w : world.

Lemma read_file_registered f js kw :
  _read_file w f js kw
  = match registered_decoder w (snd (OsPath.splitext (file_name_of f))) with
    | Some read_func =>
        ([EvDecode (file_name_of f)],
         match read_func f kw with
         | Ok df => Ok (file_name_of f, df)
         | Raise e => Raise e
         end)
    | None =>
        ([], Raise (UnsupportedFormatError
                      ("Unsupported file format: "
                       +:+ snd (OsPath.splitext (file_name_of f)))))
    end.
Proof.
  unfold _read_file. rewrite data_formats_lookup.
  destruct (registered_decoder w _) as [read_func|]; [|done].
  simpl. by destruct (read_func f kw).
Qed.


(** The name [_read_file] returns is the name of the file it was given. *)
Lemma read_file_name f js kw n odf :
  outcome (_read_file w f js kw) = Ok (n, odf) -> n = file_name_of f.
Proof.
  rewrite read_file_registered.
  destruct (registered_decoder w _) as [read_func|]; [|done]. simpl.
  destruct (read_func f kw); [|done]. by intros [= <- _].
Qed.


(** The keys of a collection are the keys the results were stored under,
    and a collection is only made of results that did not raise. *)
Lemma collect_dom js results init out :
  collect js results init = Ok out ->
  dom out = dom init ∪ list_to_set (omap (stored_key js) results).
Proof.
  revert init. induction results as [|[[n [df|]]|e] results IH]; intros init.
  - intros [= <-]. simpl. by rewrite union_empty_r_L.
  - cbn [collect omap list_omap stored_key].
    assert (forall x : DataFrame,
              collect js results (<[key_of n js := x]> init) = Ok out ->
              dom out = dom init ∪ list_to_set (key_of n js :: omap (stored_key js) results))
      as Hins.
    { intros x Hx. rewrite (IH _ Hx), dom_insert_L. simpl.
      rewrite (assoc_L (∪) (dom init)). f_equal. apply (comm_L (∪)). }
    destruct (init !! key_of n js) as [old|]; [|apply Hins].
    destruct js; [|apply Hins].
    destruct (concat old df) as [joined|e]; [apply Hins|done].
  - cbn [collect omap list_omap stored_key]. apply IH.
  - done.
Qed.

(** A result that raised makes the loop raise. *)
Lemma collect_raises js results init e :
  Raise e ∈ results -> exists e', collect js results init = Raise e'.
Proof.
  revert init. induction results as [|r results IH]; intros init Hin.
  - by apply elem_of_nil in Hin.
  - apply elem_of_cons in Hin as [<-|Hin]; [by exists e|].
    destruct r as [[n [df|]]|e0]; cbn [collect]; [| by apply IH | by exists e0].
    destruct (init !! key_of n js) as [old|]; [|by apply IH].
    destruct js; [|by apply IH].
    destruct (concat old df) as [joined|e0]; [by apply IH|by exists e0].
Qed.

(** Without [join_similar] the loop goes through results that did not
    raise, whatever they are. *)
Lemma collect_false_prefix pre rest init :
  Forall (fun r => exists x, r = Ok x) pre ->
  exists m, collect false (pre ++ rest) init = collect false rest m.
Proof.
  intros Hpre. revert init.
  induction Hpre as [|r pre [[n [df|]] ->] _ IH]; intros init.
  - by exists init.
  - cbn [app collect]. destruct (init !! key_of n false); apply IH.
  - cbn [app collect]. apply IH.
Qed.

Lemma collect_false_other results init out key :
  collect false results init = Ok out ->
  Forall (fun r => stored_key false r <> Some key) results ->
  out !! key = init !! key.
Proof.
  intros Hc Hk. revert init Hc.
  induction Hk as [|[[n [df|]]|e] results Hr _ IH]; intros init; cbn [collect].
  - by intros [= <-].
  - assert (key_of n false <> key) as Hne by (intros <-; by apply Hr).
    destruct (init !! key_of n false); intros ->%IH; by rewrite lookup_insert_ne.
  - apply IH.
  - done.
Qed.

Lemma collect_false_last pre n df post init out :
  collect false (pre ++ Ok (n, Some df) :: post) init = Ok out ->
  Forall (fun r => stored_key false r <> Some (key_of n false)) post ->
  out !! key_of n false = Some df.
Proof.
  intros Hc Hpost. revert init Hc.
  induction pre as [|[[n' [df'|]]|e] pre IH]; intros init; cbn [app collect].
  - destruct (init !! key_of n false);
      intros Hc; rewrite (collect_false_other _ _ _ _ Hc Hpost);
      apply lookup_insert_eq.
  - destruct (init !! key_of n' false); apply IH.
  - apply IH.
  - done.
Qed.

Lemma height_at_insert (data : gmap string DataFrame) k df key :
  height_at (<[k := df]> data) key
  = if String.eqb k key then height df else height_at data key.
Proof.
  unfold height_at. destruct (String.eqb_spec k key) as [->|Hne].
  - by rewrite lookup_insert_eq.
  - by rewrite lookup_insert_ne.
Qed.

(** With [join_similar] no row is lost and none is made up: under each key
    the collection gains the rows the results bring for it. *)
Lemma collect_true_rows results init out key :
  collect true results init = Ok out ->
  height_at out key = (height_at init key + rows_for key true results)%nat.
Proof.
  revert init. induction results as [|[[n [df|]]|e] results IH]; intros init;
    cbn [collect rows_for].
  - intros [= <-]. lia.
  - destruct (init !! key_of n true) as [old|] eqn:Hold.
    + destruct (concat old df) as [joined|e] eqn:Hj; [|done]. cbn [rbind].
      intros ->%IH. rewrite height_at_insert.
      destruct (String.eqb_spec (key_of n true) key) as [<-|Hne]; [|lia].
      unfold height_at at 1. rewrite Hold. simpl.
      rewrite (height_concat _ _ _ Hj). lia.
    + intros ->%IH. rewrite height_at_insert.
      destruct (String.eqb_spec (key_of n true) key) as [<-|Hne]; [|lia].
      unfold height_at at 1. rewrite Hold. simpl. lia.
  - apply IH.
  - done.
Qed.



End MoreLoading.

(** X12. Reading a directory takes its regular files and nothing else: the
    keys of the collection are the keys of the children that are regular
    files and decode to a table, so nothing comes from a subdirectory and
    no decoded file goes without its key. *)
Theorem read_data_directory_keys
  (w : world) (d : string) (names : list string) (join_similar : bool)
  (kwargs : gmap string pyval) (out : gmap string Polars.DataFrame) :
  fs w !! d = Some (Dir names) ->
  outcome (read_data w (SrcStr d) join_similar None None kwargs) = Ok out ->
  forall key,
    key ∈ dom out <->
    exists n df,
      n ∈ names /\ isfile w (OsPath.join d n) = true
      /\ outcome (_read_file w (Path (OsPath.join d n)) join_similar kwargs)
         = Ok (OsPath.join d n, Some df)
      /\ key = key_of (OsPath.join d n) join_similar.
Proof.
  intros Hd. rewrite read_data_plain, (load_directory _ _ _ _ _ Hd).
  rewrite read_files_parallel_outcome. intros Hc key.
  rewrite (collect_dom _ _ _ _ Hc), dom_empty_L, union_empty_l_L.
  rewrite elem_of_list_to_set, list_elem_of_omap. split.
  - intros (r & Hr & Hkey).
    apply list_elem_of_In, in_map_iff in Hr as (f & <- & Hf).
    apply in_map_iff in Hf as (p & <- & Hp).
    apply filter_In in Hp as [Hp Hfile].
    apply in_map_iff in Hp as (n & <- & Hn).
    destruct (outcome (_read_file w (Path (OsPath.join d n)) join_similar kwargs))
      as [[n' [df|]]|e] eqn:Hread; try done.
    pose proof (read_file_name w _ _ _ _ _ Hread) as Hname.
    simpl in Hname. subst n'.
    injection Hkey as <-. exists n, df. by rewrite <- list_elem_of_In in Hn.
  - intros (n & df & Hn & Hfile & Hread & ->).
    exists (Ok (OsPath.join d n, Some df)). split; [|done].
    rewrite <- Hread. apply list_elem_of_In.
    apply (in_map (fun f => outcome (_read_file w f join_similar kwargs))).
    apply in_map, filter_In. split; [|done].
    apply in_map. by apply list_elem_of_In.
Qed.

Lemma read_data_directory_keys_witness :
  let out : gmap string Polars.DataFrame :=
    <["df_dup" := Demo.dup]> (<["df_people" := Demo.people]> ∅) in
  fs Demo.world !! "/flat" = Some (Dir ["people.csv"; "dup.csv"])
  /\ outcome (read_data Demo.world (SrcStr "/flat") false None None ∅) = Ok out
  /\ ("df_dup" ∈ dom out <->
      exists n df,
        n ∈ ["people.csv"; "dup.csv"]
        /\ isfile Demo.world (OsPath.join "/flat" n) = true
        /\ outcome (_read_file Demo.world (Path (OsPath.join "/flat" n)) false ∅)
           = Ok (OsPath.join "/flat" n, Some df)
        /\ "df_dup" = key_of (OsPath.join "/flat" n) false).
Proof.
  intros out.
  assert (outcome (read_data Demo.world (SrcStr "/flat") false None None ∅) = Ok out)
    as Hout by (vm_compute; reflexivity).
  split; [reflexivity|]. split; [exact Hout|].
  apply (read_data_directory_keys Demo.world "/flat" ["people.csv"; "dup.csv"]
           false ∅ out); [reflexivity|exact Hout].
Defined.

(** X13. One file that cannot be read fails the whole load, whatever the
    other files are and however the pool schedules them; without
    [join_similar], when the files before it are read, the exception raised
    is the one of that file. *)
Theorem read_files_parallel_fails_fast
  (w : world) (pre : list file) (f : file) (post : list file)
  (join_similar : bool) (kwargs : gmap string pyval) (e : exn) :
  outcome (_read_file w f join_similar kwargs) = Raise e ->
  (exists e', outcome (_read_files_parallel w (pre ++ f :: post) join_similar kwargs)
              = Raise e')
  /\ (Forall (fun g => exists x, outcome (_read_file w g false kwargs) = Ok x) pre ->
      outcome (_read_files_parallel w (pre ++ f :: post) false kwargs) = Raise e).
Proof.
  intros Hf. rewrite !read_files_parallel_outcome, !map_app. cbn [map]. split.
  - apply collect_raises with e. rewrite Hf.
    apply elem_of_app. right. by left.
  - intros Hpre.
    destruct (collect_false_prefix
                (map (fun g => outcome (_read_file w g false kwargs)) pre)
                (outcome (_read_file w f false kwargs)
                 :: map (fun g => outcome (_read_file w g false kwargs)) post) ∅)
      as [m ->].
    + clear -Hpre. induction Hpre as [|g pre [x Hx] _ IH]; [done|].
      constructor; [by exists x|done].
    + change (_read_file w f false kwargs) with (_read_file w f join_similar kwargs).
      by rewrite Hf.
Qed.

Lemma read_files_parallel_fails_fast_witness :
  let f := Path "/flat/notes.txt" in
  let pre := [Path "/flat/people.csv"] in
  let e := UnsupportedFormatError "Unsupported file format: .txt" in
  outcome (_read_file Demo.world f false ∅) = Raise e
  /\ Forall (fun g => exists x, outcome (_read_file Demo.world g false ∅) = Ok x) pre
  /\ outcome (_read_files_parallel Demo.world (pre ++ f :: [Path "/flat/dup.csv"])
                false ∅) = Raise e.
Proof.
  split; [reflexivity|]. split; [repeat constructor; by eexists|].
  apply (proj2 (read_files_parallel_fails_fast Demo.world
                  [Path "/flat/people.csv"] (Path "/flat/notes.txt")
                  [Path "/flat/dup.csv"] false ∅
                  (UnsupportedFormatError "Unsupported file format: .txt")
                  eq_refl)).
  repeat constructor. by eexists.
Defined.

(** X14. Without [join_similar] the last file of a key wins: the collection
    has, under the key of a file, the table of that file when no later file
    has the same key. *)
Theorem read_files_parallel_last_wins
  (w : world) (pre : list file) (f : file) (post : list file)
  (kwargs : gmap string pyval) (df : Polars.DataFrame)
  (out : gmap string Polars.DataFrame) :
  outcome (_read_files_parallel w (pre ++ f :: post) false kwargs) = Ok out ->
  outcome (_read_file w f false kwargs) = Ok (file_name_of f, Some df) ->
  Forall (fun g => key_of (file_name_of g) false <> key_of (file_name_of f) false)
    post ->
  out !! key_of (file_name_of f) false = Some df.
Proof.
  rewrite read_files_parallel_outcome, map_app. cbn [map].
  intros Hc Hf Hpost. rewrite Hf in Hc.
  apply (collect_false_last _ _ _ _ _ _ Hc).
  clear -Hpost. induction Hpost as [|g post Hg _ IH]; [done|].
  cbn [map]. constructor; [|done].
  destruct (outcome (_read_file w g false kwargs)) as [[n [df'|]]|e] eqn:Hr;
    try done.
  apply (read_file_name w g false kwargs) in Hr as ->. simpl. congruence.
Qed.

Lemma read_files_parallel_last_wins_witness :
  let files := [ZipExtFile "a.csv" (Demo.b "jan")] ++
               ZipExtFile "a.json" (Demo.b "feb") :: [] in
  let out : gmap string Polars.DataFrame := {["df_a" := Demo.feb]} in
  outcome (_read_files_parallel Demo.world files false ∅) = Ok out
  /\ outcome (_read_file Demo.world (ZipExtFile "a.json" (Demo.b "feb")) false ∅)
     = Ok ("a.json", Some Demo.feb)
  /\ out !! key_of "a.json" false = Some Demo.feb.
Proof.
  intros files out.
  assert (outcome (_read_files_parallel Demo.world files false ∅) = Ok out)
    as Hout by (vm_compute; reflexivity).
  split; [exact Hout|]. split; [reflexivity|].
  apply (read_files_parallel_last_wins Demo.world
           [ZipExtFile "a.csv" (Demo.b "jan")]
           (ZipExtFile "a.json" (Demo.b "feb")) [] ∅ Demo.feb out);
    [exact Hout|reflexivity|constructor].
Defined.

(** X15. With [join_similar] no row is lost and none is made up: under
    each key the collection has as many rows as the tables of the files
    stored under that key have together, and none under other keys. *)
Theorem read_files_parallel_joins_rows
  (w : world) (files : list file) (kwargs : gmap string pyval)
  (out : gmap string Polars.DataFrame) (key : string) :
  outcome (_read_files_parallel w files true kwargs) = Ok out ->
  height_at out key
  = rows_for key true (map (fun f => outcome (_read_file w f true kwargs)) files).
Proof.
  rewrite read_files_parallel_outcome. intros Hc.
  by rewrite (collect_true_rows _ _ _ key Hc).
Qed.

Lemma read_files_parallel_joins_rows_witness :
  let files := [Path "/parts/sales_1.csv"; Path "/parts/sales_2.csv"] in
  let out : gmap string Polars.DataFrame :=
    {["df_sales" := [("id", Demo.ints [1; 2; 3]%Z);
                     ("amount", Demo.ints [10; 20; 30]%Z)]]} in
  outcome (_read_files_parallel Demo.world files true ∅) = Ok out
  /\ height_at out "df_sales"
     = rows_for "df_sales" true
         (map (fun f => outcome (_read_file Demo.world f true ∅)) files).
Proof.
  intros files out.
  assert (outcome (_read_files_parallel Demo.world files true ∅) = Ok out)
    as Hout by (vm_compute; reflexivity).
  split; [exact Hout|].
  apply (read_files_parallel_joins_rows Demo.world files ∅ out "df_sales" Hout).
Defined.







(* ===================================================================== *)
(** ** More on the passes of [read_data] *)
(* ===================================================================== *)

Section MorePasses.
Import Polars.

Lemma df_key_inj (k k' : string) : "df_" +:+ k = "df_" +:+ k' -> k = k'.
Proof. by intros [= ?]. Qed.

Lemma dedup_items_other data items new out key :
  dedup_items data items new = Ok out ->
  Forall (fun kv => "df_" +:+ fst kv <> key) items ->
  out !! key = new !! key.
Proof.
  intros Hd Hk. revert new Hd.
  induction Hk as [|[k v] items Hne _ IH]; intros new; simpl.
  - by intros [= <-].
  - destruct (data !! ("df_" +:+ k)) as [df|]; [|done]. simpl.
    destruct (unique df _) as [df'|]; [|done]. simpl.
    intros ->%IH. by rewrite lookup_insert_ne.
Qed.

(** What the deduplication pass puts under a name of its dict. *)
Lemma dedup_items_lookup data items new out k v :
  dedup_items data items new = Ok out ->
  NoDup (map fst items) -> (k, v) ∈ items ->
  exists df df', data !! ("df_" +:+ k) = Some df
                 /\ unique df (subset_of v) = Ok df'
                 /\ out !! ("df_" +:+ k) = Some df'.
Proof.
  revert new. induction items as [|[k0 v0] items IH]; intros new Hd Hnd Hin.
  - by apply elem_of_nil in Hin.
  - simpl in Hd. apply NoDup_cons in Hnd as [Hk0 Hnd].
    destruct (data !! ("df_" +:+ k0)) as [df|] eqn:Hdata; [|done]. simpl in Hd.
    fold (subset_of v0) in Hd.
    destruct (unique df (subset_of v0)) as [df'|] eqn:Hu; [|done]. simpl in Hd.
    apply elem_of_cons in Hin as [[= -> ->]|Hin]; [|by apply (IH _ Hd)].
    exists df, df'. split_and!; [done..|].
    rewrite (dedup_items_other _ _ _ _ _ Hd); [apply lookup_insert_eq|].
    clear -Hk0. induction items as [|[k1 v1] items IH]; [done|].
    constructor.
    + simpl. intros ->%df_key_inj. apply Hk0. by left.
    + apply IH. intros ?. apply Hk0. by right.
Qed.

Lemma filter_items_other data items new out key :
  outcome (filter_items data items new) = Ok out ->
  Forall (fun kv => "df_" +:+ fst kv <> key) items ->
  out !! key = new !! key.
Proof.
  intros Hd Hk. revert new Hd.
  induction Hk as [|[k v] items Hne _ IH]; intros new.
  - simpl. by intros [= <-].
  - cbn [filter_items]. rewrite outcome_bind.
    destruct (data !! ("df_" +:+ k)) as [df|]; [|done].
    destruct (outcome (apply_filters df v ("df_" +:+ k))) as [df'|]; [|done].
    cbn [rbind]. intros ->%IH. by rewrite lookup_insert_ne.
Qed.

(** What the filtering pass puts under a name of its dict. *)
Lemma filter_items_lookup data items new out k v :
  outcome (filter_items data items new) = Ok out ->
  NoDup (map fst items) -> (k, v) ∈ items ->
  exists df df', data !! ("df_" +:+ k) = Some df
                 /\ outcome (apply_filters df v ("df_" +:+ k)) = Ok df'
                 /\ out !! ("df_" +:+ k) = Some df'.
Proof.
  revert new. induction items as [|[k0 v0] items IH]; intros new Hd Hnd Hin.
  - by apply elem_of_nil in Hin.
  - cbn [filter_items] in Hd. rewrite outcome_bind in Hd.
    apply NoDup_cons in Hnd as [Hk0 Hnd].
    destruct (data !! ("df_" +:+ k0)) as [df|] eqn:Hdata; [|done].
    destruct (outcome (apply_filters df v0 ("df_" +:+ k0))) as [df'|] eqn:Hu;
      [|done].
    cbn [rbind] in Hd.
    apply elem_of_cons in Hin as [[= -> ->]|Hin]; [|by apply (IH _ Hd)].
    exists df, df'. split_and!; [done..|].
    rewrite (filter_items_other _ _ _ _ _ Hd); [apply lookup_insert_eq|].
    clear -Hk0. induction items as [|[k1 v1] items IH]; [done|].
    constructor.
    + simpl. intros ->%df_key_inj. apply Hk0. by left.
    + apply IH. intros ?. apply Hk0. by right.
Qed.

(** What the filtering pass raises names the table it failed on. *)
Lemma filter_items_raises data items new e :
  outcome (filter_items data items new) = Raise e ->
  exists k v, (k, v) ∈ items
    /\ ((data !! ("df_" +:+ k) = None /\ e = KeyError ("df_" +:+ k))
        \/ exists msg, e = FilterConfigurationError (wrapped ("df_" +:+ k) msg)).
Proof.
  revert new. induction items as [|[k v] items IH]; intros new; [done|].
  cbn [filter_items]. rewrite outcome_bind.
  destruct (data !! ("df_" +:+ k)) as [df|] eqn:Hdata.
  - destruct (outcome (apply_filters df v ("df_" +:+ k))) as [df'|e'] eqn:Ha;
      cbn [rbind].
    + intros (k' & v' & Hin & H)%IH. exists k', v'. split; [by right|done].
    + intros [= <-]. exists k, v. split; [by left|]. right.
      by apply (apply_filters_raises_wrapped df _ v).
  - intros [= <-]. exists k, v. split; [by left|]. by left.
Qed.

Lemma step_outcomes data (ditems : list (string * option (list string)))
  (fitems : list (string * list filter_rule)) :
  (ditems <> [] ->
   outcome (dedup_step data (Some ditems)) = dedup_items data ditems ∅)
  /\ (fitems <> [] ->
      outcome (filter_step data (Some fitems))
      = outcome (filter_items data fitems ∅)).
Proof.
  split.
  - destruct ditems; [done|]. intros _. unfold dedup_step. cbn [nonempty].
    by rewrite try_except_reraise.
  - destruct fitems; [done|]. intros _. unfold filter_step. cbn [nonempty].
    by rewrite try_except_reraise.
Qed.

End MorePasses.

(** X19. What the deduplication pass returns under a name of its dict is
    the loaded table of that name made unique on the columns given, or on
    all columns when none are given. *)
Theorem read_data_deduplicates_named
  (w : world) (src : source) (join_similar : bool) (kwargs : gmap string pyval)
  (ditems : list (string * option (list string)))
  (data out : gmap string Polars.DataFrame) (k : string) (v : option (list string)) :
  outcome (load w src join_similar kwargs) = Ok data ->
  NoDup (map fst ditems) -> (k, v) ∈ ditems ->
  outcome (read_data w src join_similar (Some ditems) None kwargs) = Ok out ->
  exists df df', data !! ("df_" +:+ k) = Some df
                 /\ Polars.unique df (subset_of v) = Ok df'
                 /\ out !! ("df_" +:+ k) = Some df'.
Proof.
  intros Hload Hnd Hin. rewrite read_data_outcome, Hload. cbn [rbind].
  assert (ditems <> []) as Hne by (intros ->; by apply elem_of_nil in Hin).
  rewrite (proj1 (step_outcomes data ditems []) Hne).
  destruct (dedup_items data ditems ∅) as [data'|e] eqn:Hd; [|done].
  cbn [rbind filter_step nonempty outcome ret snd]. intros [= <-].
  by apply (dedup_items_lookup _ _ _ _ _ _ Hd).
Qed.

Lemma read_data_deduplicates_named_witness :
  let loaded : gmap string Polars.DataFrame :=
    <["df_dup" := Demo.dup]> (<["df_people" := Demo.people]> ∅) in
  let unique_dup := [("id", Demo.ints [1; 2]%Z); ("v", Demo.ints [7; 9]%Z)] in
  let kept : gmap string Polars.DataFrame := {["df_dup" := unique_dup]} in
  outcome (load Demo.world (SrcStr "/flat") false ∅) = Ok loaded
  /\ NoDup (map fst [("dup", Some ["id"])])
  /\ ("dup", Some ["id"]) ∈ [("dup", Some ["id"])]
  /\ outcome (read_data Demo.world (SrcStr "/flat") false
                (Some [("dup", Some ["id"])]) None ∅) = Ok kept
  /\ exists df df', loaded !! ("df_" +:+ "dup") = Some df
                    /\ Polars.unique df (subset_of (Some ["id"])) = Ok df'
                    /\ kept !! ("df_" +:+ "dup") = Some df'.
Proof.
  intros loaded unique_dup kept.
  assert (outcome (load Demo.world (SrcStr "/flat") false ∅) = Ok loaded) as Hl
    by (vm_compute; reflexivity).
  assert (outcome (read_data Demo.world (SrcStr "/flat") false
                     (Some [("dup", Some ["id"])]) None ∅) = Ok kept) as Hk
    by (vm_compute; reflexivity).
  assert (NoDup (map fst [("dup", Some ["id"])])) as Hnd
    by (apply NoDup_singleton).
  assert (("dup", Some ["id"]) ∈ [("dup", Some ["id"])]) as Hin by (by left).
  split; [exact Hl|]. split; [exact Hnd|]. split; [exact Hin|]. split; [exact Hk|].
  apply (read_data_deduplicates_named Demo.world (SrcStr "/flat") false ∅
           [("dup", Some ["id"])] loaded kept "dup" (Some ["id"]) Hl Hnd Hin Hk).
Defined.

(** X20. What the filtering pass returns under a name of its dict is what
    [apply_filters] returns for the loaded table of that name, the rules of
    the entry and the key as the name of the table. *)
Theorem read_data_filters_named
  (w : world) (src : source) (join_similar : bool) (kwargs : gmap string pyval)
  (fitems : list (string * list filter_rule))
  (data out : gmap string Polars.DataFrame) (k : string) (v : list filter_rule) :
  outcome (load w src join_similar kwargs) = Ok data ->
  NoDup (map fst fitems) -> (k, v) ∈ fitems ->
  outcome (read_data w src join_similar None (Some fitems) kwargs) = Ok out ->
  exists df df', data !! ("df_" +:+ k) = Some df
                 /\ outcome (apply_filters df v ("df_" +:+ k)) = Ok df'
                 /\ out !! ("df_" +:+ k) = Some df'.
Proof.
  intros Hload Hnd Hin. rewrite read_data_outcome, Hload.
  cbn [rbind dedup_step nonempty outcome ret snd].
  assert (fitems <> []) as Hne by (intros ->; by apply elem_of_nil in Hin).
  rewrite (proj2 (step_outcomes data [] fitems) Hne).
  intros Hf. by apply (filter_items_lookup _ _ _ _ _ _ Hf).
Qed.

Lemma read_data_filters_named_witness :
  let loaded : gmap string Polars.DataFrame :=
    <["df_dup" := Demo.dup]> (<["df_people" := Demo.people]> ∅) in
  let rules := [mkRule "age" ">" (PScalar (SInt 64)) None] in
  let kept : gmap string Polars.DataFrame :=
    {["df_people" := [("age", Demo.ints [65; 70]%Z)]]} in
  outcome (load Demo.world (SrcStr "/flat") false ∅) = Ok loaded
  /\ NoDup (map fst [("people", rules)])
  /\ ("people", rules) ∈ [("people", rules)]
  /\ outcome (read_data Demo.world (SrcStr "/flat") false None
                (Some [("people", rules)]) ∅) = Ok kept
  /\ exists df df', loaded !! ("df_" +:+ "people") = Some df
                    /\ outcome (apply_filters df rules ("df_" +:+ "people")) = Ok df'
                    /\ kept !! ("df_" +:+ "people") = Some df'.
Proof.
  intros loaded rules kept.
  assert (outcome (load Demo.world (SrcStr "/flat") false ∅) = Ok loaded) as Hl
    by (vm_compute; reflexivity).
  assert (outcome (read_data Demo.world (SrcStr "/flat") false None
                     (Some [("people", rules)]) ∅) = Ok kept) as Hk
    by (vm_compute; reflexivity).
  assert (NoDup (map fst [("people", rules)])) as Hnd by (apply NoDup_singleton).
  assert (("people", rules) ∈ [("people", rules)]) as Hin by (by left).
  split; [exact Hl|]. split; [exact Hnd|]. split; [exact Hin|]. split; [exact Hk|].
  apply (read_data_filters_named Demo.world (SrcStr "/flat") false ∅
           [("people", rules)] loaded kept "people" rules Hl Hnd Hin Hk).
Defined.

(** X21. With both dicts the filtering pass works on what the
    deduplication pass returned: a call that returns returns exactly the
    tables [filter_subset] names, and it returns only if each of them is
    also named by [duplicated_subset_dict] and was loaded. *)
Theorem read_data_dedup_then_filter
  (w : world) (src : source) (join_similar : bool) (kwargs : gmap string pyval)
  (ditems : list (string * option (list string)))
  (fitems : list (string * list filter_rule))
  (data out : gmap string Polars.DataFrame) :
  outcome (load w src join_similar kwargs) = Ok data ->
  ditems <> [] -> fitems <> [] ->
  outcome (read_data w src join_similar (Some ditems) (Some fitems) kwargs) = Ok out ->
  dom out = named_keys fitems
  /\ named_keys fitems ⊆ named_keys ditems
  /\ named_keys ditems ⊆ dom data.
Proof.
  intros Hload Hd Hf. rewrite read_data_outcome, Hload. cbn [rbind].
  rewrite (proj1 (step_outcomes data ditems fitems) Hd).
  destruct (dedup_items data ditems ∅) as [data'|e] eqn:Hdd; [|done].
  cbn [rbind]. rewrite (proj2 (step_outcomes data' ditems fitems) Hf).
  intros [Ho Hs]%filter_items_dom. apply dedup_items_dom in Hdd as [Hd' Hs'].
  rewrite dom_empty_L, union_empty_l_L in Ho, Hd'.
  split_and!; [done|by rewrite <- Hd'|done].
Qed.

Lemma read_data_dedup_then_filter_witness :
  let ditems := [("people", None); ("dup", Some ["id"])] in
  let fitems := [("people", [mkRule "age" ">" (PScalar (SInt 64)) None])] in
  let loaded : gmap string Polars.DataFrame :=
    <["df_dup" := Demo.dup]> (<["df_people" := Demo.people]> ∅) in
  let kept : gmap string Polars.DataFrame :=
    {["df_people" := [("age", Demo.ints [65; 70]%Z)]]} in
  outcome (load Demo.world (SrcStr "/flat") false ∅) = Ok loaded
  /\ ditems <> [] /\ fitems <> []
  /\ outcome (read_data Demo.world (SrcStr "/flat") false (Some ditems)
                (Some fitems) ∅) = Ok kept
  /\ dom kept = named_keys fitems
  /\ named_keys fitems ⊆ named_keys ditems
  /\ named_keys ditems ⊆ dom loaded.
Proof.
  intros ditems fitems loaded kept.
  assert (outcome (load Demo.world (SrcStr "/flat") false ∅) = Ok loaded) as Hl
    by (vm_compute; reflexivity).
  assert (outcome (read_data Demo.world (SrcStr "/flat") false (Some ditems)
                     (Some fitems) ∅) = Ok kept) as Hk
    by (vm_compute; reflexivity).
  split; [exact Hl|]. split; [discriminate|]. split; [discriminate|].
  split; [exact Hk|].
  apply (read_data_dedup_then_filter Demo.world (SrcStr "/flat") false ∅
           ditems fitems loaded kept Hl); [discriminate|discriminate|exact Hk].
Defined.

(** X22. When the filtering pass fails, what [read_data] raises tells
    which entry failed: a [KeyError] with the key of an entry whose table
    was not there, or the [FilterConfigurationError] of [apply_filters]
    with the key of the entry in its message. *)
Theorem read_data_filter_failure
  (w : world) (src : source) (join_similar : bool) (kwargs : gmap string pyval)
  (fitems : list (string * list filter_rule))
  (data : gmap string Polars.DataFrame) (e : exn) :
  outcome (load w src join_similar kwargs) = Ok data ->
  outcome (read_data w src join_similar None (Some fitems) kwargs) = Raise e ->
  exists k v, (k, v) ∈ fitems
    /\ ((data !! ("df_" +:+ k) = None /\ e = KeyError ("df_" +:+ k))
        \/ exists msg, e = FilterConfigurationError (wrapped ("df_" +:+ k) msg)).
Proof.
  intros Hload. rewrite read_data_outcome, Hload.
  cbn [rbind dedup_step nonempty outcome ret snd].
  destruct fitems as [|item fitems]; [done|].
  rewrite (proj2 (step_outcomes data [] (item :: fitems))) by done.
  apply filter_items_raises.
Qed.

Lemma read_data_filter_failure_witness :
  let fitems := [("people", [mkRule "height" ">" (PScalar (SInt 64)) None])] in
  let loaded : gmap string Polars.DataFrame :=
    <["df_dup" := Demo.dup]> (<["df_people" := Demo.people]> ∅) in
  let e := FilterConfigurationError (wrapped "df_people" "height") in
  outcome (load Demo.world (SrcStr "/flat") false ∅) = Ok loaded
  /\ outcome (read_data Demo.world (SrcStr "/flat") false None (Some fitems) ∅)
     = Raise e
  /\ exists k v, (k, v) ∈ fitems
       /\ ((loaded !! ("df_" +:+ k) = None /\ e = KeyError ("df_" +:+ k))
           \/ exists msg, e = FilterConfigurationError (wrapped ("df_" +:+ k) msg)).
Proof.
  intros fitems loaded e.
  assert (outcome (load Demo.world (SrcStr "/flat") false ∅) = Ok loaded) as Hl
    by (vm_compute; reflexivity).
  assert (outcome (read_data Demo.world (SrcStr "/flat") false None (Some fitems) ∅)
          = Raise e) as He by (vm_compute; reflexivity).
  split; [exact Hl|]. split; [exact He|].
  apply (read_data_filter_failure Demo.world (SrcStr "/flat") false ∅
           fitems loaded e Hl He).
Defined.

Lemma read_files_parallel_keys (w : world) (files : list file) (js : bool)
  (kw : gmap string pyval) (data : gmap string Polars.DataFrame) (key : string) :
  outcome (_read_files_parallel w files js kw) = Ok data ->
  key ∈ dom data -> exists s, key = "df_" +:+ s.
Proof.
  rewrite read_files_parallel_outcome. intros Hc.
  rewrite (collect_dom _ _ _ _ Hc), dom_empty_L, union_empty_l_L.
  rewrite elem_of_list_to_set, list_elem_of_omap.
  intros ([[n [df|]]|e] & _ & Hk); try done.
  injection Hk as <-. unfold key_of. eauto.
Qed.

Lemma load_keys (w : world) (src : source) (js : bool) (kw : gmap string pyval)
  (data : gmap string Polars.DataFrame) (key : string) :
  outcome (load w src js kw) = Ok data ->
  key ∈ dom data -> exists s, key = "df_" +:+ s.
Proof.
  unfold load.
  destruct (is_directory_source w src);
    [|destruct (is_zip_source w src); [|done]].
  - unfold _read_from_directory. rewrite outcome_bind.
    destruct (outcome (listdir w _)) as [names|]; [|done].
    apply read_files_parallel_keys.
  - unfold _read_from_zip. rewrite outcome_bind.
    match goal with |- context [rbind (outcome ?m)] => destruct (outcome m) end;
      [|done].
    apply read_files_parallel_keys.
Qed.

Lemma named_keys_prefixed {A} (items : list (string * A)) (key : string) :
  key ∈ named_keys items -> exists s, key = "df_" +:+ s.
Proof.
  unfold named_keys. rewrite elem_of_list_to_set.
  intros (kv & <- & _)%list_elem_of_In%in_map_iff. eauto.
Qed.

(** X23. Every key of a collection [read_data] returns starts with 'df_',
    whatever the source and whichever passes were asked for. *)
Theorem read_data_keys_prefixed
  (w : world) (src : source) (join_similar : bool)
  (duplicated_subset_dict : option (list (string * option (list string))))
  (filter_subset : option (list (string * list filter_rule)))
  (kwargs : gmap string pyval) (out : gmap string Polars.DataFrame)
  (key : string) :
  outcome (read_data w src join_similar duplicated_subset_dict filter_subset kwargs)
  = Ok out ->
  key ∈ dom out -> exists s, key = "df_" +:+ s.
Proof.
  rewrite read_data_outcome.
  destruct (outcome (load w src join_similar kwargs)) as [data|] eqn:Hl; [|done].
  cbn [rbind].
  destruct (outcome (dedup_step data duplicated_subset_dict)) as [data'|] eqn:Hd;
    [|done].
  cbn [rbind]. intros Hf.
  assert (forall key, key ∈ dom data' -> exists s, key = "df_" +:+ s) as Hdata'.
  { unfold dedup_step in Hd. destruct duplicated_subset_dict as [[|item items]|];
      cbn [nonempty] in Hd; try (injection Hd as <-; intros ?; by apply (load_keys w src join_similar kwargs data)).
    rewrite try_except_reraise in Hd. cbn [outcome lift snd default] in Hd.
    apply dedup_items_dom in Hd as [Hd _]. intros key'. rewrite Hd.
    rewrite dom_empty_L, union_empty_l_L. apply named_keys_prefixed. }
  unfold filter_step in Hf. destruct filter_subset as [[|item items]|];
    cbn [nonempty] in Hf; try (injection Hf as <-; by apply Hdata').
  rewrite try_except_reraise in Hf.
  apply filter_items_dom in Hf as [Hf _]. rewrite Hf.
  rewrite dom_empty_L, union_empty_l_L. apply named_keys_prefixed.
Qed.

Lemma read_data_keys_prefixed_witness :
  let out : gmap string Polars.DataFrame :=
    <["df_dup" := Demo.dup]> (<["df_people" := Demo.people]> ∅) in
  outcome (read_data Demo.world (SrcStr "/flat") false None None ∅) = Ok out
  /\ "df_dup" ∈ dom out
  /\ exists s, "df_dup" = "df_" +:+ s.
Proof.
  intros out.
  assert (outcome (read_data Demo.world (SrcStr "/flat") false None None ∅) = Ok out)
    as Hout by (vm_compute; reflexivity).
  assert ("df_dup" ∈ dom out) as Hin.
  { unfold out. rewrite dom_insert_L. apply elem_of_union_l, elem_of_singleton.
    reflexivity. }
  split; [exact Hout|]. split; [exact Hin|].
  apply (read_data_keys_prefixed Demo.world (SrcStr "/flat") false None None ∅
           out "df_dup" Hout Hin).
Defined.
